(** * tools/docker_quickstart.py: a shallow embedding

    The script shells out to [git] and [docker], checks exit codes and
    turns a failure into exit code 1.  The embedding keeps that shape:

    - the host is a state ([World]): a file system, the hidden state of the
      outside world (network, remote repositories, installed programs), the
      chronological trace of what the script asked the host to do, and the
      text written to the two output streams;
    - Python exceptions are an error monad over that state ([M]);
    - what an external process does is not known to the script, so process
      execution is a parameter ([spawn]) of the development, and so are
      argparse's parser and the resolution of the workspace path. *)

From stdpp Require Import gmap strings list fin_maps pretty.

Open Scope string_scope.
Open Scope Z_scope.
Open Scope list_scope.

(** ** Paths and the file system *)

(** A resolved absolute POSIX path is its list of components below the
    root; [[]] is the root itself. *)
Abbreviation Path := (list string).

(** [str(path)] *)
Definition str_path (p : Path) : string :=
  "/" +:+ String.concat "/" p.

(** [path / name] for a single relative component [name] *)
Definition joinpath (p : Path) (name : string) : Path := (p ++ [name])%list.

Inductive node := Dir | File.

Abbreviation FS := (gmap (list string) node).

Definition fs_lookup (fs : FS) (p : Path) : option node :=
  match p with
  | [] => Some Dir
  | _ => fs !! p
  end.

(** [Path.exists()] and [Path.is_dir()] *)
Definition fs_exists (fs : FS) (p : Path) : bool :=
  match fs_lookup fs p with Some _ => true | None => false end.

Definition fs_is_dir (fs : FS) (p : Path) : bool :=
  match fs_lookup fs p with Some Dir => true | _ => false end.

Definition parent (p : Path) : Path := removelast p.

(** A file system is well formed when every node sits in a directory. *)
Definition fs_wf (fs : FS) : Prop :=
  forall p n, fs !! p = Some n -> fs_lookup fs (parent p) = Some Dir.

(** ** Exceptions *)

(** An [OSError] as Python builds it from a failed system call.  Of the
    object the error names ([exc.filename]) the record keeps the text of
    its [repr], which is all that [str(exc)] shows: a [str] prints in
    quotes, a [Path] as [PosixPath('...')]. *)
Record OSError := mkOSError {
  os_errno : Z;
  os_strerror : string;
  os_filename : option string
}.

Definition ENOENT : Z := 2.
Definition EEXIST : Z := 17.
Definition ENOTDIR : Z := 20.

(** Python raises the subclass [FileNotFoundError] exactly for [ENOENT]. *)
Definition is_FileNotFoundError (e : OSError) : bool :=
  os_errno e =? ENOENT.

Inductive exn :=
| CommandError (msg : string)   (* class CommandError(RuntimeError) *)
| OSErr (e : OSError)
| SystemExit (code : Z).        (* raised by argparse on a usage error *)

(** *** Text of an exception *)

Definition squote : Ascii.ascii := Ascii.ascii_of_N 39.
Definition dquote : Ascii.ascii := Ascii.ascii_of_N 34.
Definition backslash : Ascii.ascii := Ascii.ascii_of_N 92.

Fixpoint contains_char (c : Ascii.ascii) (s : string) : bool :=
  match s with
  | EmptyString => false
  | String d s' => if Ascii.eqb c d then true else contains_char c s'
  end.

Definition hex_digit (n : N) : Ascii.ascii :=
  (if n <? 10 then Ascii.ascii_of_N (48 + n) else Ascii.ascii_of_N (87 + n))%N.

(** One character of [repr(str)].  Bytes from 128 up belong to the UTF-8
    encoding of a non-ASCII character and are kept as they are, which is
    what Python does when that character is printable; the escapes Python
    writes for the other ones are not modelled. *)
Definition repr_char (q c : Ascii.ascii) : string :=
  let n := Ascii.N_of_ascii c in
  if Ascii.eqb c backslash then String backslash (String backslash "")
  else if Ascii.eqb c q then String backslash (String q "")
  else if (n =? 9)%N then String backslash "t"
  else if (n =? 10)%N then String backslash "n"
  else if (n =? 13)%N then String backslash "r"
  else if ((n <? 32) || (n =? 127))%N
       then String backslash
              (String (Ascii.ascii_of_N 120) (String (hex_digit (n / 16)) (String (hex_digit (n mod 16)) "")))
  else String c "".

Fixpoint repr_chars (q : Ascii.ascii) (s : string) : string :=
  match s with
  | EmptyString => ""
  | String c s' => repr_char q c +:+ repr_chars q s'
  end.

(** [repr(s)] for a [str]: single quotes unless the text has a single quote
    and no double quote.  The script only ever shows a [repr] through the
    text of an [OSError]; the errors of a launch bring theirs along, and
    this function renders the names in the errors of [os.mkdir] and in
    [executable_not_found]. *)
Definition py_repr (s : string) : string :=
  let q := if contains_char squote s && negb (contains_char dquote s)
           then dquote else squote in
  String q (repr_chars q s +:+ String q "").

(** [str(exc)] for an [OSError]: [[Errno n] strerror: repr(filename)] *)
Definition str_OSError (e : OSError) : string :=
  "[Errno " +:+ pretty (os_errno e) +:+ "] " +:+ os_strerror e +:+
  match os_filename e with
  | Some f => ": " +:+ f
  | None => ""
  end.

(** ** [os.mkdir] and [Path.mkdir] *)

(** Whether walking down [rest] from the directory [pre] meets a regular
    file. *)
Fixpoint file_on_path (fs : FS) (pre : Path) (rest : list string) : bool :=
  match rest with
  | [] => false
  | c :: rest' =>
    match fs !! (pre ++ [c]) with
    | Some File => true
    | _ => file_on_path fs (pre ++ [c]) rest'
    end
  end.

(** The system call: fails when the parent is missing ([ENOENT], or
    [ENOTDIR] when the walk to it runs into a regular file) or is not a
    directory, or when the path is already there.  A host can refuse a
    creation for more reasons (permissions, a read-only file system, name
    limits), which are not modelled: of a creation that is not already
    there the properties below say what holds when the call returns, or
    that it fails, never that it succeeds. *)
Definition os_mkdir (p : Path) (fs : FS) : OSError + FS :=
  let name := Some (py_repr (str_path p)) in
  match p with
  | [] => inl (mkOSError EEXIST "File exists" name)
  | _ =>
    match fs_lookup fs (parent p) with
    | None =>
      if file_on_path fs [] (parent p)
      then inl (mkOSError ENOTDIR "Not a directory" name)
      else inl (mkOSError ENOENT "No such file or directory" name)
    | Some File => inl (mkOSError ENOTDIR "Not a directory" name)
    | Some Dir =>
      match fs !! p with
      | Some _ => inl (mkOSError EEXIST "File exists" name)
      | None => inr (<[p := Dir]> fs)
      end
    end
  end.

(** [Path.mkdir(parents=False, exist_ok=exist_ok)] *)
Definition mkdir_single (p : Path) (exist_ok : bool) (fs : FS) : OSError + FS :=
  match os_mkdir p fs with
  | inr fs' => inr fs'
  | inl e =>
    if is_FileNotFoundError e then inl e
    else if exist_ok && fs_is_dir fs p then inr fs
    else inl e
  end.

(** [Path.mkdir(parents, exist_ok)] on the path whose components, leaf
    first, are [rp]: pathlib tries [os.mkdir]; on [FileNotFoundError] with
    [parents] set it makes the parent with [parents=True, exist_ok=True] and
    retries without [parents]; any other [OSError] is swallowed only when
    [exist_ok] is set and the path is a directory. *)
Fixpoint mkdir_rev (rp : list string) (parents exist_ok : bool) (fs : FS)
  : OSError + FS :=
  match os_mkdir (rev rp) fs with
  | inr fs' => inr fs'
  | inl e =>
    if is_FileNotFoundError e then
      match rp with
      | [] => inl e
      | _ :: rp' =>
        if parents then
          match mkdir_rev rp' true true fs with
          | inl e' => inl e'
          | inr fs1 => mkdir_single (rev rp) exist_ok fs1
          end
        else inl e
      end
    else if exist_ok && fs_is_dir fs (rev rp) then inr fs
    else inl e
  end.

Definition Path_mkdir (p : Path) (parents exist_ok : bool) (fs : FS)
  : OSError + FS :=
  mkdir_rev (rev p) parents exist_ok fs.

(** ** External processes *)

(** One call of [subprocess.run(cmd, cwd=cwd, check=False)]. *)
Record Invocation := mkInv {
  inv_cmd : list string;
  inv_cwd : option Path
}.

(** Its outcome: the process ran and exited with a return code, or it could
    not be launched and [subprocess.run] raised an [OSError]. *)
Inductive Completed :=
| Exited (returncode : Z)
| LaunchError (e : OSError).

(** What the launcher raises when the program [exe] is not on the host:
    [FileNotFoundError(2, strerror, exe)]. *)
Definition executable_not_found (strerror exe : string) : OSError :=
  mkOSError ENOENT strerror (Some (py_repr exe)).

Inductive Event :=
| EvMkdir (p : Path) (ok : bool)
| EvRun (inv : Invocation) (r : Completed).

(** The invocations of a trace, in order. *)
Definition commands (tr : list Event) : list Invocation :=
  omap (fun ev => match ev with EvRun inv _ => Some inv | _ => None end) tr.

(** ** The parsed command line *)

Definition DEFAULT_PACKAGING_REPO : string :=
  "https://github.com/netdisco/netdisco-docker.git".
Definition DEFAULT_BRANCH : string := "main".

(** [argparse.Namespace] with the six attributes [parse_args] declares;
    [workspace] is the path as given, before [expanduser().resolve()]. *)
Record Namespace := mkNamespace {
  repo_url : string;
  branch : string;
  workspace : string;
  packaging_url : string;
  compose_services : list string;
  no_start : bool
}.

(** ** The monad of the script: state and exceptions *)

Inductive Res (A : Type) :=
| Ok (a : A)
| Raise (e : exn).
Arguments Ok {A} a.
Arguments Raise {A} e.

Section program.

(** The hidden state of the outside world and what running a command does
    to it and to the file system. *)
Context {Ext : Type}.
Variable spawn : Invocation -> FS -> Ext -> Completed * FS * Ext.

(** [parser.parse_args(argv)] for the parser built in [parse_args]: the
    namespace, or the code argparse exits with. *)
Variable parse_args : list string -> Z + Namespace.

(** [Path.expanduser().resolve()] on the workspace argument; the host's
    home directory, working directory and symbolic links are fixed in it. *)
Variable expanduser_resolve : string -> Path.

Record World := mkWorld {
  w_fs : FS;
  w_ext : Ext;
  w_trace : list Event;       (* oldest first *)
  w_stdout : list string;     (* lines printed, oldest first *)
  w_stderr : list string
}.

Definition M (A : Type) : Type := World -> Res A * World.

#[local] Instance M_ret : MRet M := fun A a w => (Ok a, w).

#[local] Instance M_bind : MBind M := fun A B k m w =>
  match m w with
  | (Ok a, w') => k a w'
  | (Raise e, w') => (Raise e, w')
  end.

Definition raise {A} (e : exn) : M A := fun w => (Raise e, w).

(** [try: body except ...]: [handler e] is the matching [except] clause,
    if there is one. *)
Definition try_except {A} (body : M A) (handler : exn -> option (M A)) : M A :=
  fun w =>
    match body w with
    | (Ok a, w') => (Ok a, w')
    | (Raise e, w') =>
      match handler e with
      | Some h => h w'
      | None => (Raise e, w')
      end
    end.

(** *** Primitive effects *)

Definition log (ev : Event) (w : World) : World :=
  mkWorld (w_fs w) (w_ext w) (w_trace w ++ [ev])%list (w_stdout w) (w_stderr w).

(** [print(s)] and [print(s, file=sys.stderr)] *)
Definition print (s : string) : M unit := fun w =>
  (Ok tt, mkWorld (w_fs w) (w_ext w) (w_trace w) (w_stdout w ++ [s])%list (w_stderr w)).

Definition print_stderr (s : string) : M unit := fun w =>
  (Ok tt, mkWorld (w_fs w) (w_ext w) (w_trace w) (w_stdout w) (w_stderr w ++ [s])%list).

(** [destination.exists()] *)
Definition Path_exists (p : Path) : M bool := fun w =>
  (Ok (fs_exists (w_fs w) p), w).

(** [workspace.mkdir(parents=True, exist_ok=True)] *)
Definition mkdir_parents_exist_ok (p : Path) : M unit := fun w =>
  match Path_mkdir p true true (w_fs w) with
  | inr fs' =>
    (Ok tt, log (EvMkdir p true)
              (mkWorld fs' (w_ext w) (w_trace w) (w_stdout w) (w_stderr w)))
  | inl e => (Raise (OSErr e), log (EvMkdir p false) w)
  end.

(** [subprocess.run(cmd, cwd=cwd, check=False).returncode] *)
Definition subprocess_run (cmd : list string) (cwd : option Path) : M Z := fun w =>
  let inv := mkInv cmd cwd in
  match spawn inv (w_fs w) (w_ext w) with
  | (r, fs', ext') =>
    let w' := log (EvRun inv r)
                (mkWorld fs' ext' (w_trace w) (w_stdout w) (w_stderr w)) in
    match r with
    | Exited rc => (Ok rc, w')
    | LaunchError e => (Raise (OSErr e), w')
    end
  end.

(** *** The script *)

Definition run_command (cmd : list string) (cwd : option Path) : M unit :=
  returncode ← subprocess_run cmd cwd;
  if bool_decide (returncode ≠ 0) then
    let joined := String.concat " " cmd in
    raise (CommandError
             ("Command failed (" +:+ pretty returncode +:+ "): " +:+ joined))
  else mret tt.

Definition ensure_repo (url : string) (destination : Path) (branch : string)
  : M unit :=
  present ← Path_exists destination;
  if present : bool then
    print ("Updating repository in " +:+ str_path destination);;
    run_command ["git"; "fetch"; "--all"] (Some destination);;
    run_command ["git"; "checkout"; branch] (Some destination);;
    run_command ["git"; "pull"; "--ff-only"] (Some destination)
  else
    print ("Cloning " +:+ url +:+ " into " +:+ str_path destination);;
    run_command ["git"; "clone"; "--branch"; branch; url; str_path destination]
                None.

Definition build_and_run (packaging_dir : Path) (compose_services : list string)
    (branch repo_url : string) (start_after_build : bool) : M unit :=
  let compose_cmd :=
    ["docker"; "compose"; "build";
     "--build-arg"; "COMMITTISH=" +:+ branch;
     "--build-arg"; "GIT_URL=" +:+ repo_url] in
  let compose_cmd := (compose_cmd ++ compose_services)%list in
  print "Building Docker images…";;
  run_command compose_cmd (Some packaging_dir);;
  if start_after_build then
    let up_cmd := ["docker"; "compose"; "up"; "-d"] in
    print "Starting Docker stack…";;
    run_command up_cmd (Some packaging_dir);;
    print "Stack started. Use 'docker compose logs -f' to watch output."
  else
    print "Build complete. Skipping 'docker compose up' as requested.".

(** The [except] clauses of [main]. *)
Definition main_handlers (e : exn) : option (M Z) :=
  match e with
  | CommandError msg => Some (print_stderr msg;; mret 1)
  | OSErr e =>
    if is_FileNotFoundError e then
      Some (print_stderr ("Required executable not found: " +:+ str_OSError e
                          +:+ ". Please install git and docker.");;
            mret 1)
    else None
  | SystemExit _ => None
  end.

(** Lines 129-152 of [main]: the two directories, the [try] statement and
    the final [return 0]. *)
Definition main_steps (args : Namespace) (workspace : Path) : M Z :=
  let packaging_dir := joinpath workspace "netdisco-docker" in
  let fork_dir := joinpath workspace "netdisco" in
  try_except
    (ensure_repo (packaging_url args) packaging_dir "main";;
     ensure_repo (repo_url args) fork_dir (branch args);;
     build_and_run packaging_dir (compose_services args) (branch args)
                   (repo_url args) (negb (no_start args));;
     mret 0)
    main_handlers.

Definition main (argv : list string) : M Z :=
  match parse_args argv with
  | inl code => raise (SystemExit code)
  | inr args =>
    let workspace := expanduser_resolve (workspace args) in
    mkdir_parents_exist_ok workspace;;
    main_steps args workspace
  end.

End program.

Arguments World : clear implicits.
Arguments M : clear implicits.
#[global] Existing Instance M_ret.
#[global] Existing Instance M_bind.

(** The part of the trace that was added between two worlds. *)
Definition trace_since {Ext} (w w' : World Ext) : list Event :=
  drop (length (w_trace w)) (w_trace w').

(** ** The commands the script is meant to issue *)

Definition git_fetch (destination : Path) : Invocation :=
  mkInv ["git"; "fetch"; "--all"] (Some destination).
Definition git_checkout (destination : Path) (branch : string) : Invocation :=
  mkInv ["git"; "checkout"; branch] (Some destination).
Definition git_pull (destination : Path) : Invocation :=
  mkInv ["git"; "pull"; "--ff-only"] (Some destination).
Definition git_clone (url : string) (destination : Path) (branch : string)
  : Invocation :=
  mkInv ["git"; "clone"; "--branch"; branch; url; str_path destination] None.

Definition compose_build (packaging_dir : Path) (services : list string)
    (branch repo_url : string) : Invocation :=
  mkInv ("docker" :: "compose" :: "build" ::
         "--build-arg" :: ("COMMITTISH=" +:+ branch) ::
         "--build-arg" :: ("GIT_URL=" +:+ repo_url) :: services)
        (Some packaging_dir).
Definition compose_up (packaging_dir : Path) : Invocation :=
  mkInv ["docker"; "compose"; "up"; "-d"] (Some packaging_dir).

(** Syncing one repository, for a destination that is or is not there. *)
Definition sync_plan (url : string) (destination : Path) (branch : string)
    (present : bool) : list Invocation :=
  if present
  then [git_fetch destination; git_checkout destination branch;
        git_pull destination]
  else [git_clone url destination branch].

Definition build_plan (packaging_dir : Path) (services : list string)
    (branch repo_url : string) (start : bool) : list Invocation :=
  compose_build packaging_dir services branch repo_url ::
  (if start then [compose_up packaging_dir] else []).

(** The whole run after the workspace is there: packaging repository at
    [main], fork at the given branch, build, start unless [--no-start]. *)
Definition main_plan (args : Namespace) (ws : Path)
    (packaging_present fork_present : bool) : list Invocation :=
  (sync_plan (packaging_url args) (joinpath ws "netdisco-docker") "main"
             packaging_present ++
   sync_plan (repo_url args) (joinpath ws "netdisco") (branch args)
             fork_present ++
   build_plan (joinpath ws "netdisco-docker") (compose_services args)
              (branch args) (repo_url args) (negb (no_start args)))%list.

(** The two syncs alone. *)
Definition syncs (args : Namespace) (ws : Path) (p1 p2 : bool)
  : list Invocation :=
  sync_plan (packaging_url args) (joinpath ws "netdisco-docker") "main" p1 ++
  sync_plan (repo_url args) (joinpath ws "netdisco") (branch args) p2.

(** *** Running a list of commands, stopping at the first failure *)

(** The text of the [CommandError] *)
Definition command_failed (returncode : Z) (cmd : list string) : string :=
  "Command failed (" +:+ pretty returncode +:+ "): " +:+ String.concat " " cmd.

(** The exception a command that did not exit with 0 ends in. *)
Definition failure_exn (inv : Invocation) (r : Completed) : exn :=
  match r with
  | Exited rc => CommandError (command_failed rc (inv_cmd inv))
  | LaunchError e => OSErr e
  end.

(** [ff_run plan tr o]: [tr] is a fail-fast run of [plan]: the commands of
    [plan] in order, each exiting with 0, up to and including the first
    that does not; [o] is the exception of that one, or [None] when the
    whole plan was run. *)
Inductive ff_run : list Invocation -> list Event -> option exn -> Prop :=
| ff_done : ff_run [] [] None
| ff_step inv plan tr o :
    ff_run plan tr o ->
    ff_run (inv :: plan) (EvRun inv (Exited 0) :: tr) o
| ff_fail inv plan r :
    r <> Exited 0 ->
    ff_run (inv :: plan) [EvRun inv r] (Some (failure_exn inv r)).

Definition res_exn {A} (r : Res A) : option exn :=
  match r with Ok _ => None | Raise e => Some e end.

(** Whether an invocation is [docker compose <sub> ...]. *)
Definition is_compose (sub : string) (inv : Invocation) : bool :=
  match inv_cmd inv with
  | prog :: c :: s :: _ =>
    String.eqb prog "docker" && String.eqb c "compose" && String.eqb s sub
  | _ => false
  end.

(** [performs m w plan]: started in [w], the computation [m] extends the
    trace by a fail-fast run of [plan], raises exactly the exception of
    that run, and writes nothing to standard error. *)
Definition performs {Ext A} (m : M Ext A) (w : World Ext)
    (plan : list Invocation) : Prop :=
  exists tr,
    w_trace (m w).2 = (w_trace w ++ tr)%list /\
    w_stderr (m w).2 = w_stderr w /\
    ff_run plan tr (res_exn (m w).1).

(** What [main] makes of the outcome of its [try] body: the value it
    returns or the exception it lets through, and the lines it writes to
    standard error. *)
Definition handled (o : option exn) : Res Z * list string :=
  match o with
  | None => (Ok 0, [])
  | Some (CommandError msg) => (Ok 1, [msg])
  | Some (OSErr e) =>
    if is_FileNotFoundError e
    then (Ok 1, ["Required executable not found: " +:+ str_OSError e
                 +:+ ". Please install git and docker."])
    else (Raise (OSErr e), [])
  | Some (SystemExit code) => (Raise (SystemExit code), [])
  end.

(** Whether an invocation is [git <sub> ...]. *)
Definition is_git (sub : string) (inv : Invocation) : bool :=
  match inv_cmd inv with
  | prog :: s :: _ => String.eqb prog "git" && String.eqb s sub
  | _ => false
  end.

(** ** A concrete host, to run the script on *)

Module Demo.

(** The outside world is a script of outcomes: each external command
    consumes the next one and leaves the file system alone; when the script
    is used up every command exits with 0. *)
Definition spawn (inv : Invocation) (fs : FS) (script : list Completed)
  : Completed * FS * list Completed :=
  match script with
  | [] => (Exited 0, fs, [])
  | r :: rest => (r, fs, rest)
  end.

(** Splits at [/] and drops empty components: resolution of a path that is
    absolute and has no [.], [..], [~] or symbolic link in it. *)
Fixpoint split_path (cur : string) (s : string) : Path :=
  match s with
  | EmptyString => if String.eqb cur "" then [] else [cur]
  | String c s' =>
    if Ascii.eqb c (Ascii.ascii_of_N 47)
    then (if String.eqb cur "" then split_path "" s' else cur :: split_path "" s')
    else split_path (cur +:+ String c "") s'
  end.

Definition expanduser_resolve (s : string) : Path := split_path "" s.

Inductive expect :=
| AnyOption | ValueOf (dest : string) | Services.

Definition starts_with_dash (tok : string) : bool :=
  match tok with
  | String c _ => Ascii.eqb c (Ascii.ascii_of_N 45)
  | EmptyString => false
  end.

Definition set_value (dest value : string) (ns : Namespace) : Namespace :=
  if String.eqb dest "repo_url" then
    mkNamespace value (branch ns) (workspace ns) (packaging_url ns)
                (compose_services ns) (no_start ns)
  else if String.eqb dest "branch" then
    mkNamespace (repo_url ns) value (workspace ns) (packaging_url ns)
                (compose_services ns) (no_start ns)
  else if String.eqb dest "workspace" then
    mkNamespace (repo_url ns) (branch ns) value (packaging_url ns)
                (compose_services ns) (no_start ns)
  else
    mkNamespace (repo_url ns) (branch ns) (workspace ns) value
                (compose_services ns) (no_start ns).

(** The command lines that spell every option out in full and give each
    value in a token of its own; anything else is reported as a usage
    error (exit code 2). *)
Fixpoint parse_tokens (st : expect) (have_repo : bool) (ns : Namespace)
    (argv : list string) : Z + Namespace :=
  match argv with
  | [] =>
    match st with
    | ValueOf _ => inl 2
    | _ => if have_repo then inr ns else inl 2
    end
  | tok :: rest =>
    if starts_with_dash tok then
      match st with
      | ValueOf _ => inl 2
      | _ =>
        if String.eqb tok "--repo-url" then
          parse_tokens (ValueOf "repo_url") true ns rest
        else if String.eqb tok "--branch" then
          parse_tokens (ValueOf "branch") have_repo ns rest
        else if String.eqb tok "--workspace" then
          parse_tokens (ValueOf "workspace") have_repo ns rest
        else if String.eqb tok "--packaging-url" then
          parse_tokens (ValueOf "packaging_url") have_repo ns rest
        else if String.eqb tok "--compose-services" then
          parse_tokens Services have_repo
            (mkNamespace (repo_url ns) (branch ns) (workspace ns)
                         (packaging_url ns) [] (no_start ns)) rest
        else if String.eqb tok "--no-start" then
          parse_tokens AnyOption have_repo
            (mkNamespace (repo_url ns) (branch ns) (workspace ns)
                         (packaging_url ns) (compose_services ns) true) rest
        else inl 2
      end
    else
      match st with
      | AnyOption => inl 2
      | ValueOf dest => parse_tokens AnyOption have_repo (set_value dest tok ns) rest
      | Services =>
        parse_tokens Services have_repo
          (mkNamespace (repo_url ns) (branch ns) (workspace ns)
                       (packaging_url ns) (compose_services ns ++ [tok])%list
                       (no_start ns)) rest
      end
  end.

(** The declared defaults; the home directory is [/home/user]. *)
Definition defaults : Namespace :=
  mkNamespace "" DEFAULT_BRANCH "/home/user/netdisco-docker-workspace"
              DEFAULT_PACKAGING_REPO ["netdisco-backend"; "netdisco-web"] false.

Definition parse_args (argv : list string) : Z + Namespace :=
  parse_tokens AnyOption false defaults argv.

Definition host (fs : FS) (script : list Completed) : World (list Completed) :=
  mkWorld fs script [] [] [].

Definition main (argv : list string) : M (list Completed) Z :=
  main spawn parse_args expanduser_resolve argv.

End Demo.

(** Command lines, directories and hosts to run the script on. *)
Module Runs.

Definition fork_url : string := "https://example.org/fork.git".

Definition argv : list string :=
  ["--repo-url"; fork_url; "--branch"; "dev"; "--workspace"; "/srv/work"].

Definition args : Namespace :=
  mkNamespace fork_url "dev" "/srv/work" DEFAULT_PACKAGING_REPO
              ["netdisco-backend"; "netdisco-web"] false.

Definition work : Path := ["srv"; "work"].
Definition packaging_dir : Path := ["srv"; "work"; "netdisco-docker"].
Definition fork_dir : Path := ["srv"; "work"; "netdisco"].

Definition build : Invocation :=
  mkInv ["docker"; "compose"; "build";
         "--build-arg"; "COMMITTISH=dev";
         "--build-arg"; "GIT_URL=https://example.org/fork.git";
         "netdisco-backend"; "netdisco-web"]
        (Some packaging_dir).

(** A host with nothing on disk, and one where the fork is checked out. *)
Definition empty_host (script : list Completed) : World (list Completed) :=
  Demo.host ∅ script.

Definition fork_present : FS :=
  <[fork_dir := Dir]> (<[work := Dir]> (<[["srv"] := Dir]> ∅)).

Definition no_git : Completed :=
  LaunchError (executable_not_found "No such file or directory" "git").

End Runs.

(** The lines printed to standard output between two worlds. *)
Definition stdout_since {Ext} (w w' : World Ext) : list string :=
  drop (length (w_stdout w)) (w_stdout w').

(** Whether a step of the run went well: the directory was made, the
    command exited with 0. *)
Definition ev_ok (ev : Event) : bool :=
  match ev with
  | EvMkdir _ ok => ok
  | EvRun _ (Exited rc) => rc =? 0
  | EvRun _ (LaunchError _) => false
  end.

(** * Properties *)

(** ** Fail-fast runs *)

Lemma ff_run_app p1 p2 tr1 tr2 o :
  ff_run p1 tr1 None -> ff_run p2 tr2 o -> ff_run (p1 ++ p2) (tr1 ++ tr2) o.
Proof.
  intros H1 H2. remember None as o1 eqn:Ho1.
  induction H1 as [|inv plan tr o' H IH|inv plan r Hr]; simpl.
  - exact H2.
  - constructor. auto.
  - discriminate.
Qed.

Lemma ff_run_app_fail p1 p2 tr e :
  ff_run p1 tr (Some e) -> ff_run (p1 ++ p2) tr (Some e).
Proof.
  intros H. remember (Some e) as o eqn:Ho.
  induction H as [|inv plan tr o' H IH|inv plan r Hr]; simpl.
  - discriminate.
  - constructor. auto.
  - rewrite Ho. rewrite <- Ho. constructor. exact Hr.
Qed.

Lemma ff_run_prefix p tr o : ff_run p tr o -> commands tr `prefix_of` p.
Proof.
  induction 1 as [|inv plan tr o H IH|inv plan r Hr]; simpl.
  - apply prefix_nil.
  - apply prefix_cons. exact IH.
  - apply prefix_cons, prefix_nil.
Qed.

Lemma ff_run_complete p tr : ff_run p tr None -> commands tr = p.
Proof.
  intros H. remember None as o eqn:Ho.
  induction H as [|inv plan tr o H IH|inv plan r Hr]; simpl.
  - reflexivity.
  - f_equal. auto.
  - discriminate.
Qed.

(** A command that did not exit with 0 is the last event of the run and
    decides its exception. *)
Lemma ff_run_failure_last p tr o inv r :
  ff_run p tr o -> EvRun inv r ∈ tr -> r <> Exited 0 ->
  (exists pre, tr = pre ++ [EvRun inv r]) /\ o = Some (failure_exn inv r).
Proof.
  intros H. induction H as [|inv' plan tr o H IH|inv' plan r' Hr]; intros Hin Hne.
  - inversion Hin.
  - apply elem_of_cons in Hin as [Heq|Hin].
    + inversion Heq; subst. congruence.
    + destruct (IH Hin Hne) as [[pre ->] ->]. split; [|reflexivity].
      exists (EvRun inv' (Exited 0) :: pre). reflexivity.
  - apply list_elem_of_singleton in Hin. inversion Hin; subst.
    split; [exists []|]; reflexivity.
Qed.


(** Every event of a fail-fast run is a command of the plan. *)
Lemma ff_run_events p tr o ev :
  ff_run p tr o -> ev ∈ tr -> exists inv r, ev = EvRun inv r /\ inv ∈ p.
Proof.
  intros H. induction H as [|inv plan tr o H IH|inv plan r Hr]; intros Hin.
  - inversion Hin.
  - apply elem_of_cons in Hin as [->|Hin].
    + exists inv, (Exited 0). split; [reflexivity|]. apply elem_of_cons; auto.
    + destruct (IH Hin) as (i & r & -> & Hi). exists i, r.
      split; [reflexivity|]. apply elem_of_cons; auto.
  - apply list_elem_of_singleton in Hin as ->. exists inv, r.
    split; [reflexivity|]. apply elem_of_cons; auto.
Qed.

Lemma trace_since_app {Ext} (w w' : World Ext) tr :
  w_trace w' = (w_trace w ++ tr)%list -> trace_since w w' = tr.
Proof. intros H. unfold trace_since. rewrite H. apply drop_app_length. Qed.

(** ** Making directories *)


Lemma fs_lookup_snoc (fs : FS) (q : Path) (c : string) : fs_lookup fs (q ++ [c]) = fs !! (q ++ [c]).
Proof. destruct q; reflexivity. Qed.

Lemma os_mkdir_snoc (q : Path) (c : string) (fs : FS) :
  os_mkdir (q ++ [c]) fs =
  match fs_lookup fs q with
  | None =>
    if file_on_path fs [] q
    then inl (mkOSError ENOTDIR "Not a directory"
                        (Some (py_repr (str_path (q ++ [c])))))
    else inl (mkOSError ENOENT "No such file or directory"
                        (Some (py_repr (str_path (q ++ [c])))))
  | Some File => inl (mkOSError ENOTDIR "Not a directory"
                                (Some (py_repr (str_path (q ++ [c])))))
  | Some Dir =>
    match fs !! (q ++ [c]) with
    | Some _ => inl (mkOSError EEXIST "File exists"
                               (Some (py_repr (str_path (q ++ [c])))))
    | None => inr (<[q ++ [c] := Dir]> fs)
    end
  end.
Proof.
  unfold os_mkdir, parent. rewrite removelast_last.
  destruct (q ++ [c]) eqn:E; [|reflexivity].
  destruct q; discriminate.
Qed.


(** In a well-formed file system the ancestors of a node are directories. *)
Lemma fs_wf_ancestors (fs : FS) (p : Path) n :
  fs_wf fs -> fs_lookup fs p = Some n ->
  forall q : Path, q `prefix_of` p -> q <> p -> fs_lookup fs q = Some Dir.
Proof.
  intros Hwf. revert n. induction p as [|c p IH] using rev_ind; intros n Hp q Hq Hne.
  - apply prefix_nil_inv in Hq. congruence.
  - rewrite fs_lookup_snoc in Hp. pose proof (Hwf _ _ Hp) as Hpar.
    unfold parent in Hpar. rewrite removelast_last in Hpar.
    destruct Hq as [k Hk].
    assert (k = [] \/ exists k' d, k = k' ++ [d]) as [->|(k' & d & ->)]
      by (destruct k using rev_ind; eauto).
    { rewrite app_nil_r in Hk. congruence. }
    rewrite app_assoc in Hk. apply app_inj_tail in Hk as [-> _].
    destruct k' as [|d' k].
    + rewrite app_nil_r in Hpar. exact Hpar.
    + apply (IH Dir Hpar); [eexists; reflexivity|].
      intros Heq. apply (f_equal length) in Heq.
      rewrite length_app in Heq. cbn in Heq. lia.
Qed.


Lemma mkdir_rev_parent_dir (c : string) (rp : list string)
    (exist_ok parents : bool) (fs : FS) :
  fs_lookup fs (rev rp) = Some Dir ->
  mkdir_rev (c :: rp) parents exist_ok fs = mkdir_single (rev rp ++ [c]) exist_ok fs.
Proof.
  intros Hq. cbn [mkdir_rev rev]. unfold mkdir_single.
  rewrite os_mkdir_snoc, Hq.
  destruct (fs !! (rev rp ++ [c])); reflexivity.
Qed.





(** ** The script's procedures as fail-fast runs *)

Section host.

Context {Ext : Type}.
Variable spawn : Invocation -> FS -> Ext -> Completed * FS * Ext.
Variable parse_args : list string -> Z + Namespace.
Variable expanduser_resolve : string -> Path.

Implicit Types (w : World Ext) (cmd : list string) (cwd : option Path).

Lemma performs_ret {A} (a : A) w : performs (mret a) w [].
Proof.
  exists []. cbn. rewrite app_nil_r. repeat split. constructor.
Qed.

Lemma performs_print s w : performs (print s) w [].
Proof.
  exists []. cbn. rewrite app_nil_r. repeat split. constructor.
Qed.

Lemma performs_Path_exists p w : performs (Path_exists p) w [].
Proof.
  exists []. cbn. rewrite app_nil_r. repeat split. constructor.
Qed.

Lemma bind_eq {A B} (m : M Ext A) (k : A -> M Ext B) w :
  (m ≫= k) w =
  match m w with
  | (Ok a, w') => k a w'
  | (Raise e, w') => (Raise e, w')
  end.
Proof. reflexivity. Qed.

Lemma bind_Ok_inv {A B} (m : M Ext A) (k : A -> M Ext B) w b w2 :
  (m ≫= k) w = (Ok b, w2) ->
  exists a w1, m w = (Ok a, w1) /\ k a w1 = (Ok b, w2).
Proof.
  rewrite bind_eq. destruct (m w) as [[a|e] w1]; [eauto|discriminate].
Qed.

Lemma performs_bind {A B} (m : M Ext A) (k : A -> M Ext B) w p1 p2 :
  performs m w p1 ->
  (forall a, (m w).1 = Ok a -> performs (k a) (m w).2 p2) ->
  performs (m ≫= k) w (p1 ++ p2).
Proof.
  intros (tr1 & Htr1 & Herr1 & Hrun1) Hk. unfold performs. rewrite bind_eq.
  destruct (m w) as [[a|e] w1] eqn:Hm; cbn in *.
  - destruct (Hk a eq_refl) as (tr2 & Htr2 & Herr2 & Hrun2).
    exists (tr1 ++ tr2). rewrite Htr2, Htr1, Herr2, Herr1, app_assoc.
    repeat split. apply ff_run_app; assumption.
  - exists tr1. repeat split; try assumption.
    apply ff_run_app_fail. exact Hrun1.
Qed.

(** [run_command] in one step: the world after the process, and the
    result its outcome leads to. *)
Lemma run_command_eq cmd cwd w :
  run_command spawn cmd cwd w =
  let inv := mkInv cmd cwd in
  let '(r, fs', ext') := spawn inv (w_fs w) (w_ext w) in
  (match r with
   | Exited rc =>
     if bool_decide (rc ≠ 0) then Raise (CommandError (command_failed rc cmd))
     else Ok tt
   | LaunchError e => Raise (OSErr e)
   end,
   mkWorld fs' ext' (w_trace w ++ [EvRun inv r]) (w_stdout w) (w_stderr w)).
Proof.
  unfold run_command. rewrite bind_eq. unfold subprocess_run. cbn.
  destruct (spawn _ _ _) as [[[rc|e] fs'] ext']; cbn; [|reflexivity].
  destruct (bool_decide (rc ≠ 0)); reflexivity.
Qed.

Lemma performs_run_command cmd cwd w :
  performs (run_command spawn cmd cwd) w [mkInv cmd cwd].
Proof.
  unfold performs. rewrite run_command_eq. cbn.
  destruct (spawn _ _ _) as [[r fs'] ext']. cbn.
  exists [EvRun (mkInv cmd cwd) r]. repeat split.
  destruct r as [rc|e].
  - destruct (bool_decide_reflect (rc ≠ 0)) as [Hne|Heq]; cbn.
    + apply (ff_fail (mkInv cmd cwd) [] (Exited rc)). congruence.
    + assert (rc = 0) as -> by lia. repeat constructor.
  - apply (ff_fail (mkInv cmd cwd) [] (LaunchError e)). discriminate.
Qed.

Lemma performs_ensure_repo url destination br w :
  performs (ensure_repo spawn url destination br) w
           (sync_plan url destination br (fs_exists (w_fs w) destination)).
Proof.
  unfold ensure_repo.
  apply (performs_bind _ _ w [] _ (performs_Path_exists _ _)).
  intros present Hp. cbn in Hp. injection Hp as <-. cbn [snd Path_exists].
  unfold sync_plan. destruct (fs_exists (w_fs w) destination).
  - apply (performs_bind _ _ _ [] _ (performs_print _ _)). intros _ _.
    apply (performs_bind _ _ _ [_] [_; _] (performs_run_command _ _ _)). intros _ _.
    apply (performs_bind _ _ _ [_] [_] (performs_run_command _ _ _)). intros _ _.
    apply performs_run_command.
  - apply (performs_bind _ _ _ [] _ (performs_print _ _)). intros _ _.
    apply performs_run_command.
Qed.

Lemma performs_build_and_run packaging_dir services br url start w :
  performs (build_and_run spawn packaging_dir services br url start) w
           (build_plan packaging_dir services br url start).
Proof.
  unfold build_and_run, build_plan.
  apply (performs_bind _ _ _ [] _ (performs_print _ _)). intros _ _.
  apply (performs_bind _ _ _ [_] _ (performs_run_command _ _ _)). intros _ _.
  destruct start.
  - apply (performs_bind _ _ _ [] _ (performs_print _ _)). intros _ _.
    apply (performs_bind _ _ _ [_] [] (performs_run_command _ _ _)). intros _ _.
    apply performs_print.
  - apply performs_print.
Qed.

(** The [try] statement of [main]: a fail-fast run of the whole plan, and
    the handlers applied to its outcome. *)
Lemma main_steps_spec args ws w :
  let r := main_steps spawn args ws w in
  exists tr fork_present o,
    w_trace r.2 = w_trace w ++ tr /\
    ff_run (main_plan args ws
              (fs_exists (w_fs w) (joinpath ws "netdisco-docker"))
              fork_present) tr o /\
    r.1 = (handled o).1 /\
    w_stderr r.2 = w_stderr w ++ (handled o).2.
Proof.
  cbn zeta. unfold main_steps, try_except.
  match goal with |- context [main_handlers] =>
    match goal with |- context [match ?b w with _ => _ end] => set (body := b) end
  end.
  assert (exists fork_present,
            performs body w
              (main_plan args ws
                 (fs_exists (w_fs w) (joinpath ws "netdisco-docker"))
                 fork_present)) as [fp (tr & Htr & Herr & Hrun)].
  { eexists. unfold main_plan, body.
    apply (performs_bind _ _ _ _ _ (performs_ensure_repo _ _ _ _)). intros _ _.
    apply (performs_bind _ _ _ _ _ (performs_ensure_repo _ _ _ _)). intros _ _.
    rewrite <- (app_nil_r (build_plan _ _ _ _ _)).
    apply (performs_bind _ _ _ _ _ (performs_build_and_run _ _ _ _ _ _)).
    intros _ _. apply performs_ret. }
  exists tr, fp.
  destruct (body w) as [[z|e] w1] eqn:Hbody; cbn in *.
  - exists None. rewrite app_nil_r.
    assert (z = 0) as ->; [|auto].
    unfold body in Hbody.
    apply bind_Ok_inv in Hbody as (? & ? & _ & Hbody).
    apply bind_Ok_inv in Hbody as (? & ? & _ & Hbody).
    apply bind_Ok_inv in Hbody as (? & ? & _ & Hbody).
    unfold mret, M_ret in Hbody. congruence.
  - exists (Some e).
    destruct e as [msg|e|code]; cbn;
      [ | destruct (is_FileNotFoundError e); cbn | ];
      rewrite ?bind_eq; cbn; rewrite ?app_nil_r, ?Herr; auto.
Qed.

(** [main] after a successful parse: the workspace is made first, and only
    then the [try] statement runs. *)
Lemma main_parsed argv args w :
  parse_args argv = inr args ->
  let ws := expanduser_resolve (workspace args) in
  main spawn parse_args expanduser_resolve argv w =
  match Path_mkdir ws true true (w_fs w) with
  | inr fs' =>
    main_steps spawn args ws
      (mkWorld fs' (w_ext w) (w_trace w ++ [EvMkdir ws true])
               (w_stdout w) (w_stderr w))
  | inl e =>
    (Raise (OSErr e),
     mkWorld (w_fs w) (w_ext w) (w_trace w ++ [EvMkdir ws false])
             (w_stdout w) (w_stderr w))
  end.
Proof.
  intros Hp. cbn zeta. unfold main. rewrite Hp, bind_eq.
  unfold mkdir_parents_exist_ok.
  destruct (Path_mkdir _ true true (w_fs w)); reflexivity.
Qed.

Lemma main_usage_error argv code w :
  parse_args argv = inl code ->
  main spawn parse_args expanduser_resolve argv w = (Raise (SystemExit code), w).
Proof. intros Hp. unfold main. rewrite Hp. reflexivity. Qed.

Lemma trace_since_refl w : trace_since w w = [].
Proof. unfold trace_since. apply drop_all. Qed.

Lemma main_spec argv args w :
  parse_args argv = inr args ->
  let ws := expanduser_resolve (workspace args) in
  let r := main spawn parse_args expanduser_resolve argv w in
  (exists e,
      Path_mkdir ws true true (w_fs w) = inl e /\
      trace_since w r.2 = [EvMkdir ws false] /\
      r.1 = Raise (OSErr e) /\ w_stderr r.2 = w_stderr w) \/
  (exists fs' tr fork_present o,
      Path_mkdir ws true true (w_fs w) = inr fs' /\
      trace_since w r.2 = EvMkdir ws true :: tr /\
      ff_run (main_plan args ws
                (fs_exists fs' (joinpath ws "netdisco-docker")) fork_present)
             tr o /\
      r.1 = (handled o).1 /\
      w_stderr r.2 = w_stderr w ++ (handled o).2).
Proof.
  intros Hp. cbn zeta. rewrite (main_parsed _ _ _ Hp).
  destruct (Path_mkdir _ true true (w_fs w)) as [e|fs'] eqn:Hmk.
  - left. exists e. repeat split. apply trace_since_app. reflexivity.
  - right.
    match goal with |- context [main_steps spawn args ?ws ?w1] =>
      destruct (main_steps_spec args ws w1) as (tr & fp & o & Htr & Hrun & Hres & Herr)
    end.
    cbn in Htr, Hrun, Herr. exists fs', tr, fp, o. repeat split; auto.
    apply trace_since_app. rewrite Htr, <- app_assoc. reflexivity.
Qed.

(** A command event of a parsed run belongs to the fail-fast run that
    follows the successful creation of the workspace. *)
Lemma main_run_event argv args w inv r :
  parse_args argv = inr args ->
  let ws := expanduser_resolve (workspace args) in
  let res := main spawn parse_args expanduser_resolve argv w in
  EvRun inv r ∈ trace_since w res.2 ->
  exists tr p1 p2 o,
    trace_since w res.2 = EvMkdir ws true :: tr /\
    ff_run (main_plan args ws p1 p2) tr o /\
    EvRun inv r ∈ tr /\
    res.1 = (handled o).1 /\
    w_stderr res.2 = w_stderr w ++ (handled o).2.
Proof.
  intros Hp. cbn zeta. intros Hin.
  destruct (main_spec argv args w Hp)
    as [(e & _ & Htr & _)|(fs' & tr & fp & o & _ & Htr & Hrun & Hres & Herr)];
    cbn zeta in *; rewrite Htr in Hin.
  - apply list_elem_of_singleton in Hin. discriminate.
  - apply elem_of_cons in Hin as [Hin|Hin]; [discriminate|].
    exists tr, (fs_exists fs' (joinpath (expanduser_resolve (workspace args))
                                        "netdisco-docker")), fp, o.
    auto.
Qed.

(** A run that does not get past the command line issues no command. *)
Lemma main_usage_error_trace argv code w :
  parse_args argv = inl code ->
  trace_since w (main spawn parse_args expanduser_resolve argv w).2 = [].
Proof.
  intros Hp. rewrite (main_usage_error _ _ _ Hp). apply trace_since_refl.
Qed.

End host.

Lemma ff_run_single inv tr o : ff_run [inv] tr o -> commands tr = [inv].
Proof.
  intros H. inversion H as [|? ? ? ? H'|]; subst; [|reflexivity].
  inversion H'; subst. reflexivity.
Qed.

Lemma ff_run_head inv p tr o :
  ff_run (inv :: p) tr o -> head (commands tr) = Some inv.
Proof. intros H. inversion H; subst; reflexivity. Qed.

Lemma elem_of_commands inv tr :
  inv ∈ commands tr <-> exists r, EvRun inv r ∈ tr.
Proof.
  unfold commands. rewrite list_elem_of_omap. split.
  - intros ([p ok|inv' r] & Hin & Heq); [discriminate|].
    injection Heq as ->. eauto.
  - intros [r Hin]. exists (EvRun inv r). auto.
Qed.

Lemma ff_run_single_event inv tr o :
  ff_run [inv] tr o -> exists r, tr = [EvRun inv r].
Proof.
  intros H. inversion H as [|? ? ? ? H'|]; subst; [|eauto].
  inversion H'; subst. eauto.
Qed.

(** A fail-fast run of two plans in a row either completes the first and
    goes on with the second, or fails within the first. *)
Lemma ff_run_split p1 p2 tr o :
  ff_run (p1 ++ p2) tr o ->
  (exists tr1 tr2, tr = tr1 ++ tr2 /\ ff_run p1 tr1 None /\ ff_run p2 tr2 o) \/
  (exists e, o = Some e /\ ff_run p1 tr (Some e)).
Proof.
  revert tr. induction p1 as [|a p1 IH]; intros tr H; cbn in H.
  - left. exists [], tr. repeat split; [constructor|exact H].
  - inversion H as [|? ? tr' ? H'|? ? r Hr]; subst.
    + destruct (IH _ H') as [(tr1 & tr2 & -> & H1 & H2)|(e & -> & H1)].
      * left. exists (EvRun a (Exited 0) :: tr1), tr2.
        repeat split; [constructor; exact H1|exact H2].
      * right. exists e. split; [reflexivity|]. constructor. exact H1.
    + right. eexists. split; [reflexivity|]. constructor. exact Hr.
Qed.

(** The two syncs issue [git] commands only. *)
Lemma sync_plan_git url destination br present inv :
  inv ∈ sync_plan url destination br present ->
  exists rest, inv_cmd inv = "git" :: rest.
Proof.
  unfold sync_plan. destruct present; intros Hin;
    repeat (apply elem_of_cons in Hin as [->|Hin]; [cbn; eauto|]);
    inversion Hin.
Qed.

Lemma main_plan_syncs args ws p1 p2 :
  main_plan args ws p1 p2 =
  syncs args ws p1 p2 ++
  build_plan (joinpath ws "netdisco-docker") (compose_services args)
             (branch args) (repo_url args) (negb (no_start args)).
Proof. unfold main_plan, syncs. rewrite app_assoc. reflexivity. Qed.

Lemma syncs_git args ws p1 p2 inv :
  inv ∈ syncs args ws p1 p2 -> exists rest, inv_cmd inv = "git" :: rest.
Proof.
  unfold syncs. intros [H|H]%elem_of_app; eapply sync_plan_git; exact H.
Qed.

(** Every command of the plan of [main]: a [git] command of a sync, the
    build, or the start. *)
Lemma main_plan_elem args ws p1 p2 inv :
  inv ∈ main_plan args ws p1 p2 ->
  (exists rest, inv_cmd inv = "git" :: rest) \/
  inv = compose_build (joinpath ws "netdisco-docker") (compose_services args)
                      (branch args) (repo_url args) \/
  (no_start args = false /\ inv = compose_up (joinpath ws "netdisco-docker")).
Proof.
  rewrite main_plan_syncs. intros [H|H]%elem_of_app.
  - left. eapply syncs_git. exact H.
  - right. unfold build_plan in H. apply elem_of_cons in H as [->|H]; [auto|].
    destruct (no_start args); cbn in H; [inversion H|].
    apply list_elem_of_singleton in H as ->. auto.
Qed.

Lemma string_app_assoc (s1 s2 s3 : string) :
  (s1 +:+ s2) +:+ s3 = s1 +:+ (s2 +:+ s3).
Proof.
  induction s1 as [|c s1 IH]; [reflexivity|].
  change (String c ((s1 +:+ s2) +:+ s3) = String c (s1 +:+ (s2 +:+ s3))).
  rewrite IH. reflexivity.
Qed.

(** ** The claims *)

Section claims.

Context {Ext : Type}.
Variable spawn : Invocation -> FS -> Ext -> Completed * FS * Ext.
Variable parse_args : list string -> Z + Namespace.
Variable expanduser_resolve : string -> Path.

Implicit Types (w : World Ext) (cmd : list string) (cwd : option Path).

(** C6: [run_command] returns normally (with no value) exactly when the
    external process exits with code 0; when the process exits with a
    nonzero code [rc] it raises [CommandError] with the message
    [Command failed (rc): ] followed by the words of the command joined by
    single spaces. *)
Theorem run_command_contract cmd cwd w :
  let outcome := (spawn (mkInv cmd cwd) (w_fs w) (w_ext w)).1.1 in
  let r := (run_command spawn cmd cwd w).1 in
  (r = Ok tt <-> outcome = Exited 0) /\
  (forall rc, outcome = Exited rc -> rc <> 0 ->
     r = Raise (CommandError
                  ("Command failed (" +:+ pretty rc +:+ "): " +:+
                   String.concat " " cmd))).
Proof.
  cbn zeta. rewrite run_command_eq. cbn zeta.
  destruct (spawn _ _ _) as [[[rc|e] fs'] ext']; cbn.
  - destruct (bool_decide_reflect (rc ≠ 0)) as [Hne|Heq]; split.
    + split; [discriminate|]. intros [= ->]. contradiction.
    + intros rc' [= <-] _. reflexivity.
    + assert (rc = 0) as -> by lia. split; reflexivity.
    + intros rc' [= <-] Hne. lia.
  - split; [split; discriminate|]. intros rc; discriminate.
Qed.

(** C2: when the destination does not exist, [ensure_repo] invokes exactly
    one command, [git clone --branch <branch> <url> <destination>], and so
    no [git fetch], [git checkout] or [git pull]. *)
Theorem ensure_repo_clones url destination br w :
  fs_exists (w_fs w) destination = false ->
  let tr := trace_since w (ensure_repo spawn url destination br w).2 in
  commands tr =
    [mkInv ["git"; "clone"; "--branch"; br; url; str_path destination] None] /\
  Forall (fun inv => is_git "fetch" inv = false /\
                     is_git "checkout" inv = false /\
                     is_git "pull" inv = false) (commands tr).
Proof.
  intros Hex. cbn zeta.
  destruct (performs_ensure_repo spawn url destination br w)
    as (tr & Htr & _ & Hrun).
  rewrite (trace_since_app _ _ _ Htr). rewrite Hex in Hrun. cbn in Hrun.
  rewrite (ff_run_single _ _ _ Hrun). split; [reflexivity|].
  repeat constructor.
Qed.

(** C1 (as amended): when the destination exists, [ensure_repo] runs
    [git fetch --all], [git checkout <branch>] and [git pull --ff-only], in
    that order and each with the destination as working directory, as a
    fail-fast sequence: it always invokes the fetch, invokes a later command
    only after the one before it exited with 0, and invokes all three when
    fetch and checkout exit with 0.  It never invokes [git clone]. *)
Theorem ensure_repo_updates url destination br w :
  fs_exists (w_fs w) destination = true ->
  let r := ensure_repo spawn url destination br w in
  let tr := trace_since w r.2 in
  let fetch := mkInv ["git"; "fetch"; "--all"] (Some destination) in
  let checkout := mkInv ["git"; "checkout"; br] (Some destination) in
  let pull := mkInv ["git"; "pull"; "--ff-only"] (Some destination) in
  ff_run [fetch; checkout; pull] tr (res_exn r.1) /\
  commands tr `prefix_of` [fetch; checkout; pull] /\
  head (commands tr) = Some fetch /\
  (EvRun fetch (Exited 0) ∈ tr -> EvRun checkout (Exited 0) ∈ tr ->
   commands tr = [fetch; checkout; pull]) /\
  Forall (fun inv => is_git "clone" inv = false) (commands tr).
Proof.
  intros Hex. cbn zeta.
  destruct (performs_ensure_repo spawn url destination br w)
    as (tr & Htr & _ & Hrun).
  rewrite (trace_since_app _ _ _ Htr). rewrite Hex in Hrun. cbn in Hrun.
  split; [exact Hrun|].
  split; [exact (ff_run_prefix _ _ _ Hrun)|].
  split; [exact (ff_run_head _ _ _ _ Hrun)|].
  split.
  - intros Hf Hc.
    inversion Hrun as [|? ? ? ? H1|? ? ? Hr1]; subst.
    + inversion H1 as [|? ? ? ? H2|? ? ? Hr2]; subst.
      * inversion H2 as [|? ? ? ? H3|? ? ? Hr3]; subst; [|reflexivity].
        inversion H3; subst. reflexivity.
      * exfalso. apply elem_of_cons in Hc as [Hc|Hc]; [discriminate|].
        apply list_elem_of_singleton in Hc. congruence.
    + exfalso. apply list_elem_of_singleton in Hf. congruence.
  - apply Forall_forall. intros inv Hin.
    destruct (ff_run_prefix _ _ _ Hrun) as [k Hk].
    assert (inv ∈ [git_fetch destination; git_checkout destination br;
                   git_pull destination]) as Hin'.
    { rewrite Hk. apply elem_of_app. auto. }
    repeat (apply elem_of_cons in Hin' as [->|Hin']; [reflexivity|]).
    inversion Hin'.
Qed.

(** C3: in every run of [main] in which some external command exits with a
    nonzero code, [main] returns 1 and that command is the last event of
    the run: nothing is executed after it. *)
Theorem main_fail_fast argv w inv rc :
  let r := main spawn parse_args expanduser_resolve argv w in
  EvRun inv (Exited rc) ∈ trace_since w r.2 -> rc <> 0 ->
  r.1 = Ok 1 /\
  exists before, trace_since w r.2 = before ++ [EvRun inv (Exited rc)].
Proof.
  cbn zeta. intros Hin Hrc.
  destruct (parse_args argv) as [code|args] eqn:Hp.
  { rewrite (main_usage_error_trace _ _ _ _ _ _ Hp) in Hin. inversion Hin. }
  destruct (main_run_event spawn parse_args expanduser_resolve _ _ _ _ _ Hp Hin)
    as (tr & p1 & p2 & o & Htr & Hrun & Hin' & Hres & _).
  assert (Exited rc <> Exited 0) as Hne by congruence.
  destruct (ff_run_failure_last _ _ _ _ _ Hrun Hin' Hne) as [[pre ->] ->].
  split; [exact Hres|]. rewrite Htr.
  exists (EvMkdir (expanduser_resolve (workspace args)) true :: pre).
  reflexivity.
Qed.

(** C4: with [--no-start], no command of the run is
    [docker compose up -d]; without it, in a run in which a
    [docker compose build] command exits with 0, the run ends with that
    build followed by [docker compose up -d] in the packaging directory,
    and no [docker compose up -d] is invoked before: it is invoked exactly
    once, after the build. *)
Theorem up_only_after_build argv args w :
  parse_args argv = inr args ->
  let tr := trace_since w (main spawn parse_args expanduser_resolve argv w).2 in
  let packaging_dir :=
    joinpath (expanduser_resolve (workspace args)) "netdisco-docker" in
  let up_cmd := ["docker"; "compose"; "up"; "-d"] in
  (no_start args = true ->
   Forall (fun inv => inv_cmd inv <> up_cmd) (commands tr)) /\
  (no_start args = false ->
   forall build,
     is_compose "build" build = true -> EvRun build (Exited 0) ∈ tr ->
     exists before r,
       tr = before ++ [EvRun build (Exited 0);
                       EvRun (mkInv up_cmd (Some packaging_dir)) r] /\
       Forall (fun inv => inv_cmd inv <> up_cmd) (commands before)).
Proof.
  intros Hp. cbn zeta.
  destruct (main_spec spawn parse_args expanduser_resolve argv args w Hp)
    as [(e & _ & Htr & _)|(fs' & tr & fp & o & _ & Htr & Hrun & _)];
    cbn zeta in *; rewrite Htr; clear Htr.
  { split.
    - intros _. constructor.
    - intros _ b _ Hin. apply list_elem_of_singleton in Hin. discriminate. }
  split.
  - intros Hns. apply Forall_forall. intros inv Hin. cbn in Hin.
    apply elem_of_commands in Hin as [r Hin].
    destruct (ff_run_events _ _ _ _ Hrun Hin) as (inv' & r' & [= <- <-] & Hplan).
    apply main_plan_elem in Hplan as [[rest ->]|[->|[Hns' _]]];
      [discriminate|discriminate|congruence].
  - intros Hns b Hb Hin.
    apply elem_of_cons in Hin as [Hin|Hin]; [discriminate|].
    rewrite main_plan_syncs, Hns in Hrun. cbn in Hrun.
    assert (forall tr' o', ff_run (syncs args (expanduser_resolve (workspace args))
                             (fs_exists fs' (joinpath (expanduser_resolve (workspace args)) "netdisco-docker")) fp) tr' o' ->
            EvRun b (Exited 0) ∈ tr' -> False) as Hsync.
    { intros tr' o' Hrun' Hin'.
      destruct (ff_run_events _ _ _ _ Hrun' Hin') as (inv' & r' & [= <- <-] & Hs).
      apply syncs_git in Hs as [rest Hs]. unfold is_compose in Hb.
      rewrite Hs in Hb. destruct rest as [|? [|? ?]]; discriminate. }
    apply ff_run_split in Hrun
      as [(tr1 & tr2 & -> & H1 & H2)|(e & -> & H1)]; [|destruct (Hsync _ _ H1 Hin)].
    apply elem_of_app in Hin as [Hin|Hin]; [destruct (Hsync _ _ H1 Hin)|].
    inversion H2 as [|? ? tr3 ? H3|? ? r Hr]; subst.
    + apply ff_run_single_event in H3 as [r ->].
      apply elem_of_cons in Hin as [[= ->]|Hin].
      * exists (EvMkdir (expanduser_resolve (workspace args)) true :: tr1), r.
        split; [reflexivity|]. cbn. apply Forall_forall. intros inv Hinv.
        apply elem_of_commands in Hinv as [r' Hinv].
        destruct (ff_run_events _ _ _ _ H1 Hinv) as (inv' & r'' & [= <- <-] & Hs).
        apply syncs_git in Hs as [rest ->]. discriminate.
      * apply list_elem_of_singleton in Hin. injection Hin as -> _.
        discriminate.
    + apply list_elem_of_singleton in Hin. congruence.
Qed.

(** C5: the build step always invokes [docker compose build] with exactly
    two [--build-arg] pairs, [COMMITTISH=<branch>] and [GIT_URL=<repo-url>],
    holding the branch and the URL it was given; and in a run of [main]
    every [docker compose build] carries the branch and the repository URL
    of the command line, verbatim. *)
Theorem build_arguments argv args w :
  parse_args argv = inr args ->
  (forall packaging_dir services b u start w0,
     head (commands (trace_since w0
             (build_and_run spawn packaging_dir services b u start w0).2)) =
     Some (mkInv (["docker"; "compose"; "build";
                   "--build-arg"; "COMMITTISH=" +:+ b;
                   "--build-arg"; "GIT_URL=" +:+ u] ++ services)
                 (Some packaging_dir))) /\
  (forall inv r,
     EvRun inv r ∈ trace_since w (main spawn parse_args expanduser_resolve argv w).2 ->
     is_compose "build" inv = true ->
     take 7 (inv_cmd inv) =
       ["docker"; "compose"; "build";
        "--build-arg"; "COMMITTISH=" +:+ branch args;
        "--build-arg"; "GIT_URL=" +:+ repo_url args] /\
     drop 7 (inv_cmd inv) = compose_services args).
Proof.
  intros Hp. split.
  - intros pd services b u start w0.
    destruct (performs_build_and_run spawn pd services b u start w0)
      as (tr & Htr & _ & Hrun).
    rewrite (trace_since_app _ _ _ Htr).
    exact (ff_run_head _ _ _ _ Hrun).
  - intros inv r Hin Hb.
    destruct (main_run_event spawn parse_args expanduser_resolve _ _ _ _ _ Hp Hin)
      as (tr & p1 & p2 & o & _ & Hrun & Hin' & _).
    destruct (ff_run_events _ _ _ _ Hrun Hin') as (inv' & r' & [= <- <-] & Hplan).
    apply main_plan_elem in Hplan as [[rest Hg]|[->|[_ ->]]].
    + unfold is_compose in Hb. rewrite Hg in Hb.
      destruct rest as [|? [|? ?]]; discriminate.
    + split; reflexivity.
    + discriminate.
Qed.

(** C10: in a run of [main] every [docker compose build] has the service
    names of the command line, in the order given, right after the seven
    words that end with the second build argument; with an empty list of
    services the command is those seven words and names no service. *)
Theorem build_services argv args w inv r :
  parse_args argv = inr args ->
  EvRun inv r ∈ trace_since w (main spawn parse_args expanduser_resolve argv w).2 ->
  is_compose "build" inv = true ->
  inv_cmd inv =
    ["docker"; "compose"; "build";
     "--build-arg"; "COMMITTISH=" +:+ branch args;
     "--build-arg"; "GIT_URL=" +:+ repo_url args] ++ compose_services args /\
  (compose_services args = [] ->
   inv_cmd inv =
     ["docker"; "compose"; "build";
      "--build-arg"; "COMMITTISH=" +:+ branch args;
      "--build-arg"; "GIT_URL=" +:+ repo_url args]).
Proof.
  intros Hp Hin Hb.
  destruct (main_run_event spawn parse_args expanduser_resolve _ _ _ _ _ Hp Hin)
    as (tr & p1 & p2 & o & _ & Hrun & Hin' & _).
  destruct (ff_run_events _ _ _ _ Hrun Hin') as (inv' & r' & [= <- <-] & Hplan).
  apply main_plan_elem in Hplan as [[rest Hg]|[->|[_ ->]]].
  - unfold is_compose in Hb. rewrite Hg in Hb.
    destruct rest as [|? [|? ?]]; discriminate.
  - split; [reflexivity|]. intros Hs. cbn. rewrite Hs. reflexivity.
  - discriminate.
Qed.

(** C7: in every run of [main] in which launching a command fails because
    its program is not on the host ([FileNotFoundError] naming the program),
    [main] returns 1 and writes to standard error one line that names the
    program and ends with the hint to install git and docker; the program
    is [git] or [docker]. *)
Theorem main_executable_not_found argv w inv strerror exe rest :
  let r := main spawn parse_args expanduser_resolve argv w in
  EvRun inv (LaunchError (executable_not_found strerror exe))
    ∈ trace_since w r.2 ->
  inv_cmd inv = exe :: rest ->
  r.1 = Ok 1 /\
  w_stderr r.2 =
    w_stderr w ++
    ["Required executable not found: [Errno 2] " +:+ strerror +:+ ": '" +:+
     exe +:+ "'. Please install git and docker."] /\
  (exe = "git" \/ exe = "docker").
Proof.
  cbn zeta. intros Hin Hcmd.
  destruct (parse_args argv) as [code|args] eqn:Hp.
  { rewrite (main_usage_error_trace _ _ _ _ _ _ Hp) in Hin. inversion Hin. }
  destruct (main_run_event spawn parse_args expanduser_resolve _ _ _ _ _ Hp Hin)
    as (tr & p1 & p2 & o & _ & Hrun & Hin' & Hres & Herr).
  clear Hin. rename Hin' into Hin.
  assert (exe = "git" \/ exe = "docker") as Hexe.
  { destruct (ff_run_events _ _ _ _ Hrun Hin) as (inv' & r' & [= <- <-] & Hplan).
    apply main_plan_elem in Hplan as [[rest' Hg]|[->|[_ ->]]];
      [rewrite Hg in Hcmd|cbn in Hcmd|cbn in Hcmd];
      injection Hcmd as <- _; auto. }
  assert (LaunchError (executable_not_found strerror exe) <> Exited 0) as Hne
    by discriminate.
  destruct (ff_run_failure_last _ _ _ _ _ Hrun Hin Hne) as [_ ->].
  rewrite Hres, Herr. cbn. split; [reflexivity|]. split; [|exact Hexe].
  apply (f_equal (app (w_stderr w))), (f_equal (fun line => [line])).
  unfold str_OSError.
  destruct Hexe as [-> | ->]; cbn; rewrite ?string_app_assoc; reflexivity.
Qed.

(** C9: every run of [main] that gets past the command line first makes
    the workspace directory and then, if that succeeded, issues its
    commands as a fail-fast run of one fixed sequence: the sync of the
    packaging repository at branch [main] (whatever [--branch] says), the
    sync of the fork at the branch of the command line, the build, and the
    start unless [--no-start] was given.  The commands issued are an
    initial part of that sequence, and all of it when [main] returns 0. *)
Theorem main_order argv args w :
  parse_args argv = inr args ->
  let r := main spawn parse_args expanduser_resolve argv w in
  let ws := expanduser_resolve (workspace args) in
  let packaging_dir := joinpath ws "netdisco-docker" in
  let fork_dir := joinpath ws "netdisco" in
  exists created run packaging_present fork_present o,
    let plan :=
      sync_plan (packaging_url args) packaging_dir "main" packaging_present ++
      sync_plan (repo_url args) fork_dir (branch args) fork_present ++
      build_plan packaging_dir (compose_services args) (branch args)
                 (repo_url args) (negb (no_start args)) in
    trace_since w r.2 = EvMkdir ws created :: run /\
    (created = false -> run = [] /\ exists e, r.1 = Raise (OSErr e)) /\
    (created = true -> ff_run plan run o /\ r.1 = (handled o).1) /\
    commands run `prefix_of` plan /\
    (r.1 = Ok 0 -> commands run = plan).
Proof.
  intros Hp. cbn zeta.
  destruct (main_spec spawn parse_args expanduser_resolve argv args w Hp)
    as [(e & _ & Htr & Hres & _)|(fs' & tr & fp & o & _ & Htr & Hrun & Hres & _)];
    cbn zeta in *.
  - exists false, [], false, false, None. rewrite Htr, Hres.
    split; [reflexivity|]. split; [eauto|]. split; [discriminate|].
    split; [apply prefix_nil|discriminate].
  - exists true, tr,
      (fs_exists fs' (joinpath (expanduser_resolve (workspace args)) "netdisco-docker")),
      fp, o.
    rewrite Htr. split; [reflexivity|]. split; [discriminate|].
    split; [auto|]. split; [exact (ff_run_prefix _ _ _ Hrun)|].
    intros H0. rewrite Hres in H0. apply ff_run_complete.
    destruct o as [[msg|e|code]|]; cbn in H0;
      [discriminate|destruct (is_FileNotFoundError e); discriminate
      |discriminate|exact Hrun].
Qed.


End claims.

(** ** The claims on a concrete host *)

Example parse_args_demo : Demo.parse_args Runs.argv = inr Runs.args.
Proof. reflexivity. Qed.

Example parse_args_no_services :
  Demo.parse_args ["--repo-url"; Runs.fork_url; "--compose-services"] =
  inr (mkNamespace Runs.fork_url "main" "/home/user/netdisco-docker-workspace"
                   DEFAULT_PACKAGING_REPO [] false).
Proof. reflexivity. Qed.

(** A first run on an empty disk: both repositories are cloned, the images
    built and the stack started. *)
Example first_run :
  let r := Demo.main Runs.argv (Runs.empty_host []) in
  r.1 = Ok 0 /\
  commands (w_trace r.2) =
    [git_clone DEFAULT_PACKAGING_REPO Runs.packaging_dir "main";
     git_clone Runs.fork_url Runs.fork_dir "dev";
     Runs.build; compose_up Runs.packaging_dir] /\
  w_stderr r.2 = [].
Proof. vm_compute. repeat split. Qed.

(** The fork is there and its checkout is killed by signal 9. *)
Example failed_checkout :
  let r := Demo.main Runs.argv
             (Demo.host Runs.fork_present [Exited 0; Exited 0; Exited (-9)]) in
  r.1 = Ok 1 /\
  commands (w_trace r.2) =
    [git_clone DEFAULT_PACKAGING_REPO Runs.packaging_dir "main";
     git_fetch Runs.fork_dir; git_checkout Runs.fork_dir "dev"] /\
  w_stderr r.2 = ["Command failed (-9): git checkout dev"].
Proof. vm_compute. repeat split. Qed.

Lemma ensure_repo_clones_witness :
  commands
    (trace_since (Runs.empty_host [])
       (ensure_repo Demo.spawn Runs.fork_url Runs.fork_dir "dev"
                    (Runs.empty_host [])).2) =
  [mkInv ["git"; "clone"; "--branch"; "dev"; Runs.fork_url;
          "/srv/work/netdisco"] None].
Proof.
  refine (proj1 (ensure_repo_clones Demo.spawn Runs.fork_url Runs.fork_dir
                   "dev" (Runs.empty_host []) _)).
  vm_compute. reflexivity.
Defined.

Lemma ensure_repo_updates_witness :
  head (commands
          (trace_since (Demo.host Runs.fork_present [Exited 0; Exited 1])
             (ensure_repo Demo.spawn Runs.fork_url Runs.fork_dir "dev"
                (Demo.host Runs.fork_present [Exited 0; Exited 1])).2)) =
  Some (mkInv ["git"; "fetch"; "--all"] (Some Runs.fork_dir)).
Proof.
  refine (proj1 (proj2 (proj2
            (ensure_repo_updates Demo.spawn Runs.fork_url Runs.fork_dir "dev"
               (Demo.host Runs.fork_present [Exited 0; Exited 1]) _)))).
  vm_compute. reflexivity.
Defined.

(** C1 as stated fails: the destination exists and [git fetch] exits with
    128, so [ensure_repo] invokes one command, not three. *)
Lemma ensure_repo_stops_at_failed_fetch :
  fs_exists Runs.fork_present Runs.fork_dir = true /\
  commands
    (trace_since (Demo.host Runs.fork_present [Exited 128])
       (ensure_repo Demo.spawn Runs.fork_url Runs.fork_dir "dev"
                    (Demo.host Runs.fork_present [Exited 128])).2) =
  [mkInv ["git"; "fetch"; "--all"] (Some Runs.fork_dir)] /\
  commands
    (trace_since (Demo.host Runs.fork_present [Exited 128])
       (ensure_repo Demo.spawn Runs.fork_url Runs.fork_dir "dev"
                    (Demo.host Runs.fork_present [Exited 128])).2) <>
  [mkInv ["git"; "fetch"; "--all"] (Some Runs.fork_dir);
   mkInv ["git"; "checkout"; "dev"] (Some Runs.fork_dir);
   mkInv ["git"; "pull"; "--ff-only"] (Some Runs.fork_dir)] /\
  (ensure_repo Demo.spawn Runs.fork_url Runs.fork_dir "dev"
               (Demo.host Runs.fork_present [Exited 128])).1 =
  Raise (CommandError "Command failed (128): git fetch --all").
Proof. vm_compute. repeat split. discriminate. Qed.

Lemma main_fail_fast_witness :
  (Demo.main Runs.argv (Runs.empty_host [Exited 0; Exited 0; Exited 2])).1 = Ok 1.
Proof.
  refine (proj1 (main_fail_fast Demo.spawn Demo.parse_args
                   Demo.expanduser_resolve Runs.argv
                   (Runs.empty_host [Exited 0; Exited 0; Exited 2])
                   Runs.build 2 _ _)).
  - vm_compute. repeat constructor.
  - lia.
Defined.

Lemma up_only_after_build_witness :
  exists before r,
    trace_since (Runs.empty_host []) (Demo.main Runs.argv (Runs.empty_host [])).2 =
      before ++ [EvRun Runs.build (Exited 0);
                 EvRun (mkInv ["docker"; "compose"; "up"; "-d"]
                              (Some Runs.packaging_dir)) r] /\
    Forall (fun inv => inv_cmd inv <> ["docker"; "compose"; "up"; "-d"])
           (commands before).
Proof.
  refine (proj2 (up_only_after_build Demo.spawn Demo.parse_args
                   Demo.expanduser_resolve Runs.argv Runs.args
                   (Runs.empty_host []) _) _ Runs.build _ _).
  - reflexivity.
  - reflexivity.
  - reflexivity.
  - vm_compute. repeat constructor.
Defined.

Lemma build_arguments_witness :
  take 7 (inv_cmd Runs.build) =
    ["docker"; "compose"; "build";
     "--build-arg"; "COMMITTISH=" +:+ "dev";
     "--build-arg"; "GIT_URL=" +:+ Runs.fork_url] /\
  drop 7 (inv_cmd Runs.build) = ["netdisco-backend"; "netdisco-web"].
Proof.
  refine (proj2 (build_arguments Demo.spawn Demo.parse_args
                   Demo.expanduser_resolve Runs.argv Runs.args
                   (Runs.empty_host []) _) Runs.build (Exited 0) _ _).
  - reflexivity.
  - vm_compute. repeat constructor.
  - reflexivity.
Defined.

Lemma build_services_witness :
  inv_cmd Runs.build =
    ["docker"; "compose"; "build";
     "--build-arg"; "COMMITTISH=" +:+ "dev";
     "--build-arg"; "GIT_URL=" +:+ Runs.fork_url] ++
    ["netdisco-backend"; "netdisco-web"].
Proof.
  refine (proj1 (build_services Demo.spawn Demo.parse_args
                   Demo.expanduser_resolve Runs.argv Runs.args
                   (Runs.empty_host [Exited 0; Exited 0; Exited 1])
                   Runs.build (Exited 1) _ _ _)).
  - reflexivity.
  - vm_compute. repeat constructor.
  - reflexivity.
Defined.

Lemma main_executable_not_found_witness :
  (Demo.main Runs.argv (Runs.empty_host [Runs.no_git])).1 = Ok 1 /\
  w_stderr (Demo.main Runs.argv (Runs.empty_host [Runs.no_git])).2 =
    [] ++
    ["Required executable not found: [Errno 2] " +:+
     "No such file or directory" +:+ ": '" +:+ "git" +:+
     "'. Please install git and docker."] /\
  ("git" = "git" \/ "git" = "docker").
Proof.
  refine (main_executable_not_found Demo.spawn Demo.parse_args
            Demo.expanduser_resolve Runs.argv (Runs.empty_host [Runs.no_git])
            (mkInv ["git"; "clone"; "--branch"; "main"; DEFAULT_PACKAGING_REPO;
                    "/srv/work/netdisco-docker"] None)
            "No such file or directory" "git"
            ["clone"; "--branch"; "main"; DEFAULT_PACKAGING_REPO;
             "/srv/work/netdisco-docker"] _ _).
  - vm_compute. repeat constructor.
  - reflexivity.
Defined.



Lemma main_order_witness :
  exists created run,
    trace_since (Runs.empty_host [])
                (Demo.main Runs.argv (Runs.empty_host [])).2 =
    EvMkdir Runs.work created :: run.
Proof.
  destruct (main_order Demo.spawn Demo.parse_args Demo.expanduser_resolve
              Runs.argv Runs.args (Runs.empty_host []))
    as (created & run & _ & _ & _ & Htr & _).
  - reflexivity.
  - exists created, run. exact Htr.
Defined.

(** * Further properties of the script *)

(** ** More on fail-fast runs *)

Lemma ev_ok_failed inv r : r <> Exited 0 -> ev_ok (EvRun inv r) = false.
Proof.
  destruct r as [rc|e]; [|reflexivity]. intros Hne. cbn.
  apply Z.eqb_neq. congruence.
Qed.

Lemma ff_run_all_ok p tr :
  ff_run p tr None -> Forall (fun ev => ev_ok ev = true) tr.
Proof.
  intros H. remember None as o eqn:Ho.
  induction H as [|inv plan tr o H IH|inv plan r Hr]; [constructor| |discriminate].
  constructor; [reflexivity|auto].
Qed.

(** A run that raised: everything before its last command exited with 0,
    and the last command did not. *)
Lemma ff_run_raised_ok p tr e :
  ff_run p tr (Some e) ->
  exists before inv r,
    tr = before ++ [EvRun inv r] /\ r <> Exited 0 /\ e = failure_exn inv r /\
    Forall (fun ev => ev_ok ev = true) before.
Proof.
  intros H. remember (Some e) as o eqn:Ho.
  induction H as [|inv plan tr o H IH|inv plan r Hr]; [discriminate| |].
  - destruct (IH Ho) as (before & inv' & r & -> & Hr & He & Hok).
    exists (EvRun inv (Exited 0) :: before), inv', r.
    split; [reflexivity|]. split; [exact Hr|]. split; [exact He|].
    constructor; [reflexivity|exact Hok].
  - injection Ho as <-. exists [], inv, r.
    split; [reflexivity|]. split; [exact Hr|]. split; [reflexivity|constructor].
Qed.

Lemma ff_run_not_all_ok p tr e :
  ff_run p tr (Some e) -> ~ Forall (fun ev => ev_ok ev = true) tr.
Proof.
  intros H Hall.
  destruct (ff_run_raised_ok _ _ _ H) as (before & inv & r & -> & Hr & _ & _).
  apply Forall_app in Hall as [_ Hlast].
  apply Forall_cons in Hlast as [Hlast _].
  rewrite (ev_ok_failed _ _ Hr) in Hlast. discriminate.
Qed.

(** Only the last event of a fail-fast run can be a failure. *)
Lemma ff_run_inner_ok p tr o before ev after :
  ff_run p tr o -> tr = before ++ ev :: after -> after <> [] ->
  ev_ok ev = true.
Proof.
  intros H -> Hafter. destruct o as [e|].
  - destruct (ff_run_raised_ok _ _ _ H) as (pre & inv & r & Heq & _ & _ & Hok).
    assert (exists after' x, after = after' ++ [x]) as (after' & x & ->).
    { destruct after as [|a after] using rev_ind; [congruence|eauto]. }
    change (before ++ ev :: after' ++ [x]) with (before ++ (ev :: after') ++ [x]) in Heq.
    rewrite app_assoc in Heq. apply app_inj_tail in Heq as [<- _].
    apply Forall_app in Hok as [_ Hok].
    apply Forall_cons in Hok as [Hok _]. exact Hok.
  - apply ff_run_all_ok in H. apply Forall_app in H as [_ H].
    apply Forall_cons in H as [H _]. exact H.
Qed.

(** ** When a directory cannot be made *)

Lemma file_on_path_some (fs : FS) (rest : list string) (pre k : Path) :
  k <> [] -> k `prefix_of` rest -> fs !! (pre ++ k) = Some File ->
  file_on_path fs pre rest = true.
Proof.
  revert pre k. induction rest as [|c rest IH]; intros pre k Hk Hpre Hfile.
  - apply prefix_nil_inv in Hpre. congruence.
  - destruct k as [|d k]; [congruence|].
    pose proof (prefix_cons_inv_1 _ _ _ _ Hpre) as ->.
    apply prefix_cons_inv_2 in Hpre. cbn.
    destruct (fs !! (pre ++ [c])) as [[|]|] eqn:Hc; try reflexivity.
    + apply (IH (pre ++ [c]) k); [|exact Hpre|rewrite <- app_assoc; exact Hfile].
      intros ->. rewrite Hc in Hfile. discriminate.
    + apply (IH (pre ++ [c]) k); [|exact Hpre|rewrite <- app_assoc; exact Hfile].
      intros ->. rewrite Hc in Hfile. discriminate.
Qed.

Lemma prefix_snoc_cases (q p : Path) (c : string) :
  q `prefix_of` p ++ [c] -> q = p ++ [c] \/ q `prefix_of` p.
Proof.
  intros [k Hk].
  assert (k = [] \/ exists k' d, k = k' ++ [d]) as [->|(k' & d & ->)]
    by (destruct k using rev_ind; eauto).
  - left. rewrite app_nil_r in Hk. congruence.
  - right. rewrite app_assoc in Hk. apply app_inj_tail in Hk as [-> _].
    exists k'. reflexivity.
Qed.

(** With a regular file at the path or above it, [mkdir] fails and the
    error is not a [FileNotFoundError]. *)
Lemma mkdir_rev_blocked (rp : list string) (fs : FS) (q : Path) :
  fs_wf fs -> q `prefix_of` rev rp -> fs_lookup fs q = Some File ->
  exists e, mkdir_rev rp true true fs = inl e /\
            (os_errno e = ENOTDIR \/ os_errno e = EEXIST).
Proof.
  intros Hwf Hpre Hfile. destruct rp as [|c rp].
  { apply prefix_nil_inv in Hpre. subst q. discriminate. }
  cbn [rev] in Hpre.
  assert (forall n, fs !! (rev rp ++ [c]) = Some n ->
                    fs_lookup fs (rev rp) = Some Dir) as Hparent.
  { intros n Hn. pose proof (Hwf _ _ Hn) as Hp. unfold parent in Hp.
    rewrite removelast_last in Hp. exact Hp. }
  destruct (fs_lookup fs (rev rp)) as [[|]|] eqn:Hq.
  - (* the parent is a directory: the file is the path itself *)
    destruct (prefix_snoc_cases _ _ _ Hpre) as [->|Hpre'].
    + rewrite fs_lookup_snoc in Hfile.
      rewrite (mkdir_rev_parent_dir _ _ _ _ _ Hq). unfold mkdir_single.
      rewrite os_mkdir_snoc, Hq, Hfile. cbn.
      unfold fs_is_dir. rewrite fs_lookup_snoc, Hfile. eauto.
    + exfalso. destruct (decide (q = rev rp)) as [->|Hne]; [congruence|].
      pose proof (fs_wf_ancestors fs (rev rp) Dir Hwf Hq q Hpre' Hne). congruence.
  - (* the parent is a regular file *)
    cbn [mkdir_rev rev]. rewrite os_mkdir_snoc, Hq. cbn.
    unfold fs_is_dir. rewrite fs_lookup_snoc.
    destruct (fs !! (rev rp ++ [c])) as [n|] eqn:Hp.
    { specialize (Hparent n eq_refl). discriminate. }
    eauto.
  - (* the parent is missing: the walk to it meets the file *)
    assert (fs !! (rev rp ++ [c]) = None) as Hp.
    { destruct (fs !! (rev rp ++ [c])) as [n|] eqn:Hp; [|reflexivity].
      specialize (Hparent n eq_refl). discriminate. }
    destruct (prefix_snoc_cases _ _ _ Hpre) as [->|Hpre'].
    { rewrite fs_lookup_snoc in Hfile. congruence. }
    assert (file_on_path fs [] (rev rp) = true) as Hwalk.
    { apply (file_on_path_some fs (rev rp) [] q); [|exact Hpre'|].
      - intros ->. discriminate.
      - destruct q; [discriminate|exact Hfile]. }
    cbn [mkdir_rev rev]. rewrite os_mkdir_snoc, Hq, Hwalk. cbn.
    unfold fs_is_dir. rewrite fs_lookup_snoc, Hp. eauto.
Qed.

Lemma fs_wf_top (c : string) (n : node) : fs_wf (<[[c] := n]> ∅).
Proof.
  intros p k H. apply lookup_insert_Some in H as [[<- _]|[_ H]].
  - reflexivity.
  - rewrite lookup_empty in H. discriminate.
Qed.

(** ** What the procedures print, return and leave alone *)

Ltac line_cases :=
  split;
  [ intros Hin;
    first [ split; reflexivity
          | exfalso;
            repeat (apply elem_of_cons in Hin as [Hin|Hin]; [discriminate Hin|]);
            inversion Hin ]
  | intros [H1 H2];
    first [ discriminate H1 | discriminate H2 | set_solver ] ].

Section more.

Context {Ext : Type}.
Variable spawn : Invocation -> FS -> Ext -> Completed * FS * Ext.
Variable parse_args : list string -> Z + Namespace.
Variable expanduser_resolve : string -> Path.

Implicit Types (w : World Ext) (cmd : list string) (cwd : option Path).

Lemma run_command_stdout cmd cwd w :
  w_stdout (run_command spawn cmd cwd w).2 = w_stdout w.
Proof.
  rewrite run_command_eq. cbn zeta.
  destruct (spawn _ _ _) as [[r fs'] ext']. reflexivity.
Qed.

Lemma bind_stdout {A B} (m : M Ext A) (k : A -> M Ext B) :
  (forall w, w_stdout (m w).2 = w_stdout w) ->
  (forall a w, w_stdout (k a w).2 = w_stdout w) ->
  forall w, w_stdout ((m ≫= k) w).2 = w_stdout w.
Proof.
  intros Hm Hk w. rewrite bind_eq. specialize (Hm w).
  destruct (m w) as [[a|e] w1]; cbn in *; [|exact Hm].
  rewrite Hk. exact Hm.
Qed.

(** X1: [run_command] asks the host for exactly one process, with the
    command and working directory it was given, whatever comes of it (it
    never retries); it prints nothing itself; and when the process cannot
    be launched it lets the [OSError] of the launch through as it is. *)
Theorem run_command_launches_once cmd cwd w :
  let outcome := (spawn (mkInv cmd cwd) (w_fs w) (w_ext w)).1.1 in
  let r := run_command spawn cmd cwd w in
  trace_since w r.2 = [EvRun (mkInv cmd cwd) outcome] /\
  w_stdout r.2 = w_stdout w /\
  w_stderr r.2 = w_stderr w /\
  (forall e, outcome = LaunchError e -> r.1 = Raise (OSErr e)).
Proof.
  cbn zeta. rewrite run_command_eq. cbn zeta.
  destruct (spawn _ _ _) as [[r fs'] ext']. cbn.
  split; [apply trace_since_app; reflexivity|].
  split; [reflexivity|]. split; [reflexivity|].
  intros e ->. reflexivity.
Qed.

(** X2: [ensure_repo] returns normally exactly when every command it
    invoked exited with 0.  When it raises, the exception is that of the
    last command it invoked, which is the only one that failed: the
    [CommandError] with that command's text and exit code, or the [OSError]
    of its launch.  It writes nothing to standard error. *)
Theorem ensure_repo_outcome url destination br w :
  let r := ensure_repo spawn url destination br w in
  let tr := trace_since w r.2 in
  (r.1 = Ok tt <-> Forall (fun ev => ev_ok ev = true) tr) /\
  (forall e, r.1 = Raise e ->
     exists before inv o,
       tr = before ++ [EvRun inv o] /\ o <> Exited 0 /\
       e = failure_exn inv o /\
       Forall (fun ev => ev_ok ev = true) before) /\
  w_stderr r.2 = w_stderr w.
Proof.
  cbn zeta.
  destruct (performs_ensure_repo spawn url destination br w)
    as (tr & Htr & Herr & Hrun).
  rewrite (trace_since_app _ _ _ Htr).
  destruct (ensure_repo spawn url destination br w).1 as [[]|e]; cbn in Hrun.
  - split; [|split; [discriminate|exact Herr]].
    split; [intros _; exact (ff_run_all_ok _ _ Hrun)|reflexivity].
  - split; [|split; [|exact Herr]].
    + split; [discriminate|]. intros Hall.
      destruct (ff_run_not_all_ok _ _ _ Hrun Hall).
    + intros e' [= <-]. exact (ff_run_raised_ok _ _ _ Hrun).
Qed.

(** X3: whatever its commands do, also when they fail or cannot be
    launched, [ensure_repo] prints exactly one line to standard output:
    [Updating repository in <destination>] when the destination exists,
    [Cloning <url> into <destination>] when not. *)
Theorem ensure_repo_announces url destination br w :
  stdout_since w (ensure_repo spawn url destination br w).2 =
  [if fs_exists (w_fs w) destination
   then "Updating repository in " +:+ str_path destination
   else "Cloning " +:+ url +:+ " into " +:+ str_path destination].
Proof.
  unfold ensure_repo, stdout_since. rewrite bind_eq. cbn [Path_exists].
  destruct (fs_exists (w_fs w) destination); rewrite bind_eq; cbn [print].
  - rewrite bind_stdout; [apply drop_app_length|apply run_command_stdout|].
    intros _ w1. apply bind_stdout; [apply run_command_stdout|].
    intros _ w2. apply run_command_stdout.
  - rewrite run_command_stdout. apply drop_app_length.
Qed.

(** X4: [build_and_run] first prints [Building Docker images…].  It prints
    the closing line [Stack started. ...] exactly when it was asked to
    start the stack and returns normally (build and start both exited with
    0), and the line [Build complete. Skipping ...] exactly when it was
    asked not to start and returns normally: after a failure no success
    message is printed. *)
Theorem build_and_run_messages packaging_dir services br url start w :
  let r := build_and_run spawn packaging_dir services br url start w in
  let out := stdout_since w r.2 in
  head out = Some "Building Docker images…" /\
  ("Stack started. Use 'docker compose logs -f' to watch output." ∈ out
   <-> start = true /\ r.1 = Ok tt) /\
  ("Build complete. Skipping 'docker compose up' as requested." ∈ out
   <-> start = false /\ r.1 = Ok tt).
Proof.
  cbn zeta. unfold build_and_run, stdout_since.
  rewrite bind_eq. cbn [print]. rewrite bind_eq, run_command_eq. cbn zeta.
  destruct (spawn _ _ _) as [[[rc|e] fs1] ext1];
    [destruct (bool_decide (rc ≠ 0))|]; cbn [fst snd w_stdout].
  - rewrite drop_app_length. split; [reflexivity|]. split; line_cases.
  - destruct start; [rewrite bind_eq|]; cbn [print].
    + rewrite bind_eq, run_command_eq. cbn zeta.
      destruct (spawn _ _ _) as [[[rc2|e2] fs2] ext2];
        [destruct (bool_decide (rc2 ≠ 0))|]; cbn [fst snd w_stdout print];
        rewrite <- ?app_assoc, drop_app_length;
        (split; [reflexivity|]); split; line_cases.
    + cbn [fst snd w_stdout print]. rewrite <- ?app_assoc, drop_app_length.
      split; [reflexivity|]. split; line_cases.
  - rewrite drop_app_length. split; [reflexivity|]. split; line_cases.
Qed.

(** ** The outcomes of [main] *)

(** X5: in every run of [main] only the last step can have failed: every
    step that is followed by another one went well (the directory was
    made, the command exited with 0).  So nothing runs after a failure of
    any kind, be it a nonzero exit or a command that could not be
    launched. *)
Theorem main_stops_at_first_failure argv w before ev after :
  trace_since w (main spawn parse_args expanduser_resolve argv w).2 =
    before ++ ev :: after ->
  after <> [] ->
  ev_ok ev = true.
Proof.
  intros Htr Hafter.
  destruct (parse_args argv) as [code|args] eqn:Hp.
  { rewrite (main_usage_error_trace _ _ _ _ _ _ Hp) in Htr.
    destruct before; discriminate. }
  destruct (main_spec spawn parse_args expanduser_resolve argv args w Hp)
    as [(e & _ & Htr' & _)|(fs' & tr & fp & o & _ & Htr' & Hrun & _)];
    cbn zeta in *; rewrite Htr' in Htr.
  - destruct before as [|b [|b' before]]; try discriminate.
    injection Htr as _ <-. congruence.
  - destruct before as [|b before].
    + injection Htr as <- _. reflexivity.
    + injection Htr as _ Htr.
      exact (ff_run_inner_ok _ _ _ _ _ _ Hrun Htr Hafter).
Qed.

(** X6: after a successful parse [main] returns 0 exactly when every step
    of the run went well: the workspace was made and every command exited
    with 0.  It then has written nothing to standard error. *)
Theorem main_returns_zero argv args w :
  parse_args argv = inr args ->
  let r := main spawn parse_args expanduser_resolve argv w in
  (r.1 = Ok 0 <-> Forall (fun ev => ev_ok ev = true) (trace_since w r.2)) /\
  (r.1 = Ok 0 -> w_stderr r.2 = w_stderr w).
Proof.
  intros Hp. cbn zeta.
  destruct (main_spec spawn parse_args expanduser_resolve argv args w Hp)
    as [(e & _ & Htr & Hres & _)
       |(fs' & tr & fp & o & _ & Htr & Hrun & Hres & Herr)];
    cbn zeta in *; rewrite Htr, Hres.
  - split; [|discriminate]. split; [discriminate|].
    intros Hall. apply Forall_cons in Hall as [Hall _]. discriminate.
  - destruct o as [e|].
    + assert ((handled (Some e)).1 <> Ok 0) as Hne.
      { destruct e as [msg|e|code]; cbn; try discriminate.
        destruct (is_FileNotFoundError e); discriminate. }
      split; [|intros H0; contradiction]. split; [intros H0; contradiction|].
      intros Hall. apply Forall_cons in Hall as [_ Hall].
      destruct (ff_run_not_all_ok _ _ _ Hrun Hall).
    + split.
      * split; [|reflexivity]. intros _. constructor; [reflexivity|].
        exact (ff_run_all_ok _ _ Hrun).
      * intros _. rewrite Herr. apply app_nil_r.
Qed.

(** X7: when a command of the run exits with a nonzero code, [main] writes
    to standard error exactly one line: [Command failed (<code>): ] and the
    words of that command joined by single spaces. *)
Theorem main_reports_failed_command argv w inv rc :
  let r := main spawn parse_args expanduser_resolve argv w in
  EvRun inv (Exited rc) ∈ trace_since w r.2 -> rc <> 0 ->
  w_stderr r.2 =
    w_stderr w ++
    ["Command failed (" +:+ pretty rc +:+ "): " +:+
     String.concat " " (inv_cmd inv)].
Proof.
  cbn zeta. intros Hin Hrc.
  destruct (parse_args argv) as [code|args] eqn:Hp.
  { rewrite (main_usage_error_trace _ _ _ _ _ _ Hp) in Hin. inversion Hin. }
  destruct (main_run_event spawn parse_args expanduser_resolve _ _ _ _ _ Hp Hin)
    as (tr & p1 & p2 & o & _ & Hrun & Hin' & _ & Herr).
  assert (Exited rc <> Exited 0) as Hne by congruence.
  destruct (ff_run_failure_last _ _ _ _ _ Hrun Hin' Hne) as [_ ->].
  exact Herr.
Qed.

(** X8: a command that cannot be launched for a reason other than a
    missing file (permission denied, not a directory, ...) is not handled:
    [main] raises that [OSError], returns no exit code and writes nothing
    to standard error. *)
Theorem main_lets_other_os_errors_through argv w inv e :
  let r := main spawn parse_args expanduser_resolve argv w in
  EvRun inv (LaunchError e) ∈ trace_since w r.2 ->
  is_FileNotFoundError e = false ->
  r.1 = Raise (OSErr e) /\ w_stderr r.2 = w_stderr w.
Proof.
  cbn zeta. intros Hin Hfnf.
  destruct (parse_args argv) as [code|args] eqn:Hp.
  { rewrite (main_usage_error_trace _ _ _ _ _ _ Hp) in Hin. inversion Hin. }
  destruct (main_run_event spawn parse_args expanduser_resolve _ _ _ _ _ Hp Hin)
    as (tr & p1 & p2 & o & _ & Hrun & Hin' & Hres & Herr).
  assert (LaunchError e <> Exited 0) as Hne by discriminate.
  destruct (ff_run_failure_last _ _ _ _ _ Hrun Hin' Hne) as [_ ->].
  cbn in Hres, Herr. rewrite Hfnf in Hres, Herr.
  split; [exact Hres|]. rewrite Herr. apply app_nil_r.
Qed.

(** X9: any [FileNotFoundError] of a launch is reported as a missing
    executable, whatever it names: also when what is missing is the working
    directory of the command, [main] returns 1 and writes to standard error
    the line [Required executable not found: <str(exc)>. Please install git
    and docker.], where [str(exc)] is [[Errno 2] <strerror>: ] followed by
    the [repr] of what the error names. *)
Theorem main_reports_any_missing_file argv w inv e :
  let r := main spawn parse_args expanduser_resolve argv w in
  EvRun inv (LaunchError e) ∈ trace_since w r.2 ->
  is_FileNotFoundError e = true ->
  r.1 = Ok 1 /\
  w_stderr r.2 =
    w_stderr w ++
    ["Required executable not found: " +:+ str_OSError e +:+
     ". Please install git and docker."].
Proof.
  cbn zeta. intros Hin Hfnf.
  destruct (parse_args argv) as [code|args] eqn:Hp.
  { rewrite (main_usage_error_trace _ _ _ _ _ _ Hp) in Hin. inversion Hin. }
  destruct (main_run_event spawn parse_args expanduser_resolve _ _ _ _ _ Hp Hin)
    as (tr & p1 & p2 & o & _ & Hrun & Hin' & Hres & Herr).
  assert (LaunchError e <> Exited 0) as Hne by discriminate.
  destruct (ff_run_failure_last _ _ _ _ _ Hrun Hin' Hne) as [_ ->].
  cbn in Hres, Herr. rewrite Hfnf in Hres, Herr. auto.
Qed.

(** X10: on a well-formed file system with a regular file at the workspace
    path or at one of its ancestors, [main] fails at the creation of the
    workspace, which is outside its [try] statement: it raises the
    [OSError] of [mkdir] (not a directory, or file exists), runs no
    command, prints nothing and leaves the file system as it was. *)
Theorem main_workspace_blocked argv args w (q : Path) :
  parse_args argv = inr args ->
  let ws := expanduser_resolve (workspace args) in
  fs_wf (w_fs w) ->
  q `prefix_of` ws ->
  fs_lookup (w_fs w) q = Some File ->
  exists e,
    (os_errno e = ENOTDIR \/ os_errno e = EEXIST) /\
    main spawn parse_args expanduser_resolve argv w =
      (Raise (OSErr e),
       mkWorld (w_fs w) (w_ext w) (w_trace w ++ [EvMkdir ws false])
               (w_stdout w) (w_stderr w)).
Proof.
  intros Hp ws Hwf Hpre Hfile.
  destruct (mkdir_rev_blocked (rev ws) (w_fs w) q Hwf) as (e & Hmk & Herrno);
    [rewrite rev_involutive; exact Hpre|exact Hfile|].
  change (Path_mkdir ws true true (w_fs w) = inl e) in Hmk.
  exists e. split; [exact Herrno|].
  rewrite (main_parsed spawn parse_args expanduser_resolve _ _ _ Hp).
  cbn zeta. fold ws. rewrite Hmk. reflexivity.
Qed.

(** X11: every command of a run works inside the workspace: it runs in the
    packaging directory or in the fork directory, or it is a [git clone]
    without a working directory whose last word, the destination, is one of
    these two directories. *)
Theorem main_stays_in_workspace argv args w inv :
  parse_args argv = inr args ->
  inv ∈ commands (trace_since w (main spawn parse_args expanduser_resolve argv w).2) ->
  let ws := expanduser_resolve (workspace args) in
  let packaging_dir := joinpath ws "netdisco-docker" in
  let fork_dir := joinpath ws "netdisco" in
  inv_cwd inv = Some packaging_dir \/
  inv_cwd inv = Some fork_dir \/
  (inv_cwd inv = None /\ is_git "clone" inv = true /\
   (last (inv_cmd inv) = Some (str_path packaging_dir) \/
    last (inv_cmd inv) = Some (str_path fork_dir))).
Proof.
  intros Hp Hin. cbn zeta.
  apply elem_of_commands in Hin as [r Hin].
  destruct (main_run_event spawn parse_args expanduser_resolve _ _ _ _ _ Hp Hin)
    as (tr & p1 & p2 & o & _ & Hrun & Hin' & _).
  destruct (ff_run_events _ _ _ _ Hrun Hin') as (inv' & r' & [= <- <-] & Hplan).
  unfold main_plan, sync_plan, build_plan in Hplan.
  destruct p1, p2, (negb (no_start args));
    repeat (apply elem_of_app in Hplan as [Hplan|Hplan]);
    repeat (apply elem_of_cons in Hplan as [->|Hplan]);
    try (inversion Hplan; fail); cbn; auto 6.
Qed.



End more.

(** ** These properties on a concrete host *)

Lemma main_stops_at_first_failure_witness :
  ev_ok (EvRun (git_clone DEFAULT_PACKAGING_REPO Runs.packaging_dir "main")
               (Exited 0)) = true.
Proof.
  refine (main_stops_at_first_failure Demo.spawn Demo.parse_args
            Demo.expanduser_resolve Runs.argv (Runs.empty_host [Exited 0; Exited 3])
            [EvMkdir Runs.work true]
            (EvRun (git_clone DEFAULT_PACKAGING_REPO Runs.packaging_dir "main")
                   (Exited 0))
            [EvRun (git_clone Runs.fork_url Runs.fork_dir "dev") (Exited 3)]
            _ _).
  - vm_compute. reflexivity.
  - discriminate.
Defined.

Lemma main_returns_zero_witness :
  (Demo.main Runs.argv (Runs.empty_host [])).1 = Ok 0 <->
  Forall (fun ev => ev_ok ev = true)
         (trace_since (Runs.empty_host [])
                      (Demo.main Runs.argv (Runs.empty_host [])).2).
Proof.
  refine (proj1 (main_returns_zero Demo.spawn Demo.parse_args
                   Demo.expanduser_resolve Runs.argv Runs.args
                   (Runs.empty_host []) _)).
  reflexivity.
Defined.

Lemma main_reports_failed_command_witness :
  w_stderr (Demo.main Runs.argv
              (Runs.empty_host [Exited 0; Exited 0; Exited 2])).2 =
  [] ++ ["Command failed (" +:+ pretty 2 +:+ "): " +:+
         String.concat " " (inv_cmd Runs.build)].
Proof.
  refine (main_reports_failed_command Demo.spawn Demo.parse_args
            Demo.expanduser_resolve Runs.argv
            (Runs.empty_host [Exited 0; Exited 0; Exited 2])
            Runs.build 2 _ _).
  - vm_compute. repeat constructor.
  - lia.
Defined.

Lemma main_lets_other_os_errors_through_witness :
  (Demo.main Runs.argv
     (Runs.empty_host
        [LaunchError (mkOSError 13 "Permission denied" (Some "'git'"))])).1 =
  Raise (OSErr (mkOSError 13 "Permission denied" (Some "'git'"))).
Proof.
  refine (proj1 (main_lets_other_os_errors_through Demo.spawn Demo.parse_args
                   Demo.expanduser_resolve Runs.argv
                   (Runs.empty_host
                      [LaunchError (mkOSError 13 "Permission denied" (Some "'git'"))])
                   (git_clone DEFAULT_PACKAGING_REPO Runs.packaging_dir "main")
                   (mkOSError 13 "Permission denied" (Some "'git'")) _ _)).
  - vm_compute. repeat constructor.
  - reflexivity.
Defined.

(** The fork directory is on disk when [ensure_repo] looks, but gone when
    [git fetch] is to start in it: the error names the [Path] object that
    was passed as working directory. *)
Lemma main_reports_any_missing_file_witness :
  (Demo.main Runs.argv
     (Demo.host Runs.fork_present
        [Exited 0;
         LaunchError (mkOSError ENOENT "No such file or directory"
                                (Some "PosixPath('/srv/work/netdisco')"))])).1
    = Ok 1 /\
  w_stderr
    (Demo.main Runs.argv
       (Demo.host Runs.fork_present
          [Exited 0;
           LaunchError (mkOSError ENOENT "No such file or directory"
                                  (Some "PosixPath('/srv/work/netdisco')"))])).2
    = ["Required executable not found: [Errno 2] No such file or directory: PosixPath('/srv/work/netdisco'). Please install git and docker."].
Proof.
  refine (main_reports_any_missing_file Demo.spawn Demo.parse_args
            Demo.expanduser_resolve Runs.argv
            (Demo.host Runs.fork_present
               [Exited 0;
                LaunchError (mkOSError ENOENT "No such file or directory"
                               (Some "PosixPath('/srv/work/netdisco')"))])
            (git_fetch Runs.fork_dir)
            (mkOSError ENOENT "No such file or directory"
                       (Some "PosixPath('/srv/work/netdisco')")) _ _).
  - vm_compute. repeat constructor.
  - reflexivity.
Defined.

Lemma main_workspace_blocked_witness :
  exists e,
    (os_errno e = ENOTDIR \/ os_errno e = EEXIST) /\
    Demo.main Runs.argv (Demo.host (<[["srv"] := File]> ∅) []) =
      (Raise (OSErr e),
       mkWorld (<[["srv"] := File]> ∅) [] ([] ++ [EvMkdir Runs.work false]) [] []).
Proof.
  refine (main_workspace_blocked Demo.spawn Demo.parse_args
            Demo.expanduser_resolve Runs.argv Runs.args
            (Demo.host (<[["srv"] := File]> ∅) []) ["srv"] _ _ _ _).
  - reflexivity.
  - apply fs_wf_top.
  - exists ["work"]. reflexivity.
  - reflexivity.
Defined.

Lemma main_stays_in_workspace_witness :
  inv_cwd Runs.build = Some (joinpath Runs.work "netdisco-docker") \/
  inv_cwd Runs.build = Some (joinpath Runs.work "netdisco") \/
  (inv_cwd Runs.build = None /\ is_git "clone" Runs.build = true /\
   (last (inv_cmd Runs.build)
      = Some (str_path (joinpath Runs.work "netdisco-docker")) \/
    last (inv_cmd Runs.build) = Some (str_path (joinpath Runs.work "netdisco")))).
Proof.
  refine (main_stays_in_workspace Demo.spawn Demo.parse_args
            Demo.expanduser_resolve Runs.argv Runs.args (Runs.empty_host [])
            Runs.build _ _).
  - reflexivity.
  - vm_compute. repeat constructor.
Defined.

